(** * LocalDockerRunner: a shallow embedding of
    [tfx/components/infra_validator/model_server_runners/local_docker_runner.py]

    The development has two parts.  The first part embeds the code: the
    string and path builtins [_parse_model_path] relies on, the runner
    object with its four public methods, and the outside world the methods
    talk to (the clock, the docker engine, the host).  The second part
    states and proves the properties of that code. *)

From Stdlib Require Import ZArith QArith Qround List Ascii String Bool Lia Lqa.
Import ListNotations.

Local Open Scope string_scope.
Local Open Scope Z_scope.

(* ================================================================== *)
(** * Part I: the embedding                                            *)
(* ================================================================== *)

(** ** Exceptions and results *)

(** The exception classes that occur in the module.  [NotFound] and
    [APIError] are the docker client's, [JobAborted] and
    [DeadlineExceeded] are [error_types]'. *)
Inductive exn : Type :=
| ValueError
| AssertionError
| NotImplementedError
| OSError
| NotFound
| APIError
| JobAborted
| DeadlineExceeded.

(** A call returns a value or raises.  [OutOfFuel] is not a Python
    outcome: it marks a run of the polling loop cut short by the iteration
    budget of the model (see [WaitUntilRunning]). *)
Inductive result (A : Type) : Type :=
| Ok (a : A)
| Raise (e : exn)
| OutOfFuel.

Arguments Ok {A} a.
Arguments Raise {A} e.
Arguments OutOfFuel {A}.

Definition exn_eqb (a b : exn) : bool :=
  match a, b with
  | ValueError, ValueError | AssertionError, AssertionError
  | NotImplementedError, NotImplementedError | OSError, OSError
  | NotFound, NotFound | APIError, APIError
  | JobAborted, JobAborted | DeadlineExceeded, DeadlineExceeded => true
  | _, _ => false
  end.

(** ** Python strings

    A [str] is modelled as a [string]: a sequence of characters with code
    points 0..255 (Latin-1). *)
Module Py.

Definition ord (c : ascii) : Z := Z.of_N (N_of_ascii c).
Definition chr (n : Z) : ascii := ascii_of_N (Z.to_N n).

(** Decimal characters (Unicode category Nd): in this range, '0'..'9'. *)
Definition is_decimal_char (c : ascii) : bool :=
  (48 <=? ord c) && (ord c <=? 57).

(** Characters for which [str.isdigit] holds: the decimal characters and
    the characters whose Numeric_Type is Digit, which in this range are
    the superscripts U+00B2, U+00B3 and U+00B9. *)
Definition is_digit_char (c : ascii) : bool :=
  is_decimal_char c
  || (ord c =? 178) || (ord c =? 179) || (ord c =? 185).

Fixpoint all_chars (f : ascii -> bool) (s : string) : bool :=
  match s with
  | EmptyString => true
  | String c s' => f c && all_chars f s'
  end.

(** [s.isdigit()]: all characters are digits and there is at least one. *)
Definition isdigit (s : string) : bool :=
  match s with
  | EmptyString => false
  | _ => all_chars is_digit_char s
  end.

(** [s.isdecimal()]. *)
Definition isdecimal (s : string) : bool :=
  match s with
  | EmptyString => false
  | _ => all_chars is_decimal_char s
  end.

Definition digit_value (c : ascii) : Z := ord c - 48.

Fixpoint int_acc (acc : Z) (s : string) : Z :=
  match s with
  | EmptyString => acc
  | String c s' => int_acc (10 * acc + digit_value c) s'
  end.

(** The limit on the digits of a string that [int] reads
    ([sys.get_int_max_str_digits()]).  CPython from 3.11 on refuses, with
    [ValueError], a string of more than 640 decimal digits whose number of
    digits, leading zeros counted, exceeds the limit in force.  The limit
    is 4300 unless it was changed, and 0 stands for no limit, which is
    also how earlier versions behave. *)
Definition default_max_str_digits : nat := 4300.

Definition too_many_digits (max_str_digits : nat) (s : string) : bool :=
  (640 <? String.length s)%nat
  && (0 <? max_str_digits)%nat
  && (max_str_digits <? String.length s)%nat.

(** [int(s)] for a string [s] that passed [s.isdigit()], the only way
    [_parse_model_path] calls it: such a string has no sign, blank or
    underscore, so [int] accepts it exactly when all its characters are
    decimal and they are not too many, and raises [ValueError] otherwise
    (a superscript digit is a digit but not a decimal). *)
Definition int (max_str_digits : nat) (s : string) : result Z :=
  if isdecimal s then
    if too_many_digits max_str_digits s then Raise ValueError
    else Ok (int_acc 0 s)
  else Raise ValueError.

Definition digit_char (d : Z) : ascii := chr (48 + d).

Fixpoint digits_fuel (fuel : nat) (n : Z) : string :=
  match fuel with
  | O => EmptyString
  | S fuel' =>
      if n <? 10 then String (digit_char n) EmptyString
      else digits_fuel fuel' (n / 10) ++ String (digit_char (n mod 10)) EmptyString
  end.

(** The decimal digits of [n >= 0], most significant first.  A number
    below [2 ^ k] has at most [k] digits. *)
Definition digits (n : Z) : string :=
  digits_fuel (S (Z.to_nat (Z.log2 n))) n.

(** [str(n)] for an [int]: its decimal rendering.  (Where a limit on
    integer strings is in force, [str] raises on a number with more
    digits than the limit; the runner only renders ports and versions
    that [int] has read.) *)
Definition str (n : Z) : string :=
  if n <? 0 then String "-" (digits (- n)) else digits n.

(** [s.rfind(c)] for a one-character [c]: the highest index of [c] in
    [s], or -1. *)
Fixpoint rfind (c : ascii) (s : string) : Z :=
  match s with
  | EmptyString => -1
  | String a s' =>
      let r := rfind c s' in
      if 0 <=? r then r + 1
      else if Ascii.eqb a c then 0 else -1
  end.

Fixpoint take (n : nat) (s : string) : string :=
  match n, s with
  | S n', String a s' => String a (take n' s')
  | _, _ => EmptyString
  end.

Fixpoint drop (n : nat) (s : string) : string :=
  match n, s with
  | S n', String _ s' => drop n' s'
  | _, _ => s
  end.

(** [s[:i]] and [s[i:]] for [i >= 0]. *)
Definition slice_to (i : Z) (s : string) : string := take (Z.to_nat i) s.
Definition slice_from (i : Z) (s : string) : string := drop (Z.to_nat i) s.

(** [s.rstrip(c)] for a one-character [c]. *)
Fixpoint rstrip (c : ascii) (s : string) : string :=
  match s with
  | EmptyString => EmptyString
  | String a s' =>
      match rstrip c s' with
      | EmptyString => if Ascii.eqb a c then EmptyString else String a EmptyString
      | r => String a r
      end
  end.

(** [c * n]. *)
Fixpoint repeat_char (c : ascii) (n : nat) : string :=
  match n with
  | O => EmptyString
  | S n' => String c (repeat_char c n')
  end.

(** [s.startswith(c)], [s.endswith(c)] and [c in s] for a one-character
    [c]. *)
Definition startswith (c : ascii) (s : string) : bool :=
  match s with
  | String a _ => Ascii.eqb a c
  | EmptyString => false
  end.

Fixpoint endswith (c : ascii) (s : string) : bool :=
  match s with
  | EmptyString => false
  | String a EmptyString => Ascii.eqb a c
  | String _ s' => endswith c s'
  end.

Fixpoint contains (c : ascii) (s : string) : bool :=
  match s with
  | EmptyString => false
  | String a s' => Ascii.eqb a c || contains c s'
  end.

(** Truth value of a string: [bool(s)]. *)
Definition truthy (s : string) : bool :=
  match s with
  | EmptyString => false
  | _ => true
  end.

End Py.

(** ** [os.path] on a POSIX host ([posixpath]) *)
Module posixpath.

Definition sep : ascii := "/"%char.

(** [[
def split(p):
    i = p.rfind(sep) + 1
    head, tail = p[:i], p[i:]
    if head and head != sep*len(head):
        head = head.rstrip(sep)
    return head, tail
]] *)
Definition split (p : string) : string * string :=
  let i := Py.rfind sep p + 1 in
  let head := Py.slice_to i p in
  let tail := Py.slice_from i p in
  let head :=
    if Py.truthy head
       && negb (String.eqb head (Py.repeat_char sep (String.length head)))
    then Py.rstrip sep head
    else head in
  (head, tail).

(** [[
def join(a, *p):
    path = a
    for b in p:
        if b.startswith(sep):
            path = b
        elif not path or path.endswith(sep):
            path += b
        else:
            path += sep + b
    return path
]] *)
Definition join_step (path b : string) : string :=
  if Py.startswith sep b then b
  else if negb (Py.truthy path) || Py.endswith sep path then path ++ b
  else path ++ String sep b.

Definition join (a : string) (p : list string) : string :=
  fold_left join_step p a.

End posixpath.

(** ** [_parse_model_path]

    [[
  model_path, version = os.path.split(model_path)
  if not version.isdigit():
    raise ValueError(...)
  base_path, model_name = os.path.split(model_path)
  return base_path, model_name, int(version)
    ]]
    [max_str_digits] is the limit on integer strings of the interpreter
    that runs the code. *)
Definition _parse_model_path (max_str_digits : nat) (model_path : string)
    : result (string * string * Z) :=
  let '(model_path, version) := posixpath.split model_path in
  if negb (Py.isdigit version) then Raise ValueError
  else
    let '(base_path, model_name) := posixpath.split model_path in
    match Py.int max_str_digits version with
    | Ok v => Ok (base_path, model_name, v)
    | Raise e => Raise e
    | OutOfFuel => OutOfFuel
    end.

(** ** The world outside the runner *)

(** The handle [docker.containers.run] returns: an opaque reference to a
    container object. *)
Record Container : Type := { container_id : nat }.

(** Modelled from the spec: the module [binary_kinds] is not among the
    sources.  A binary kind describes a flavour of serving binary and
    carries the reference of the image to run; [TensorFlowServing] is the
    kind [Start] tests for with [isinstance], and any other kind is carried
    with the name of its class. *)
Inductive BinaryKind : Type :=
| TensorFlowServing (image : string)
| OtherBinaryKind (class_name : string) (image : string).

Definition image_of (kind : BinaryKind) : string :=
  match kind with
  | TensorFlowServing image => image
  | OtherBinaryKind _ image => image
  end.

(** Modelled from the spec: the run parameters that [MakeDockerRunParams]
    of a binary kind builds, which is not among the sources either.  They
    hold the image, the host port bound to the serving port, the model
    directory mounted from the host (local-mount mode) or the model base
    path handed to the binary (base-path mode), and the detach and
    auto-removal flags, both set. *)
Record RunParams : Type := {
  rp_image : string;
  rp_host_port : Z;
  rp_model_base_path : option string;
  rp_host_model_path : option string;
  rp_detach : bool;
  rp_auto_remove : bool
}.

Definition MakeDockerRunParams (kind : BinaryKind) (host_port : Z)
    (model_base_path host_model_path : option string) : RunParams :=
  {| rp_image := image_of kind; rp_host_port := host_port;
     rp_model_base_path := model_base_path;
     rp_host_model_path := host_model_path;
     rp_detach := true; rp_auto_remove := true |}.

(** What an operation of the environment answers: it returns or raises. *)
Inductive reply (A : Type) : Type :=
| Returns (a : A)
| Fails (e : exn).

Arguments Returns {A} a.
Arguments Fails {A} e.

Definition of_reply {A} (r : reply A) : result A :=
  match r with
  | Returns a => Ok a
  | Fails e => Raise e
  end.

(** A span of time in seconds, a non-negative rational number. *)
Definition duration : Type := (N * positive)%type.

Definition seconds (d : duration) : Q := Z.of_N (fst d) # snd d.

(** The scripted environment of a runner: the host (free port, file
    system) and the docker engine.  [reload_reply i] is the engine's answer
    to the [i]-th [reload()] (the fresh status, or an error such as
    [NotFound]) and [reload_time i] the time that call takes.  An [Env]
    scripts the environment of one call of a method; a later call may be
    run under another [Env], and so be answered differently. *)
Record Env : Type := {
  free_port : reply Z;
  path_exists : string -> bool;
  run_reply : RunParams -> reply Container;
  reload_reply : nat -> reply string;
  reload_time : nat -> duration;
  stop_reply : Container -> reply unit
}.

(** What the runner did to the world, newest first. *)
Inductive event : Type :=
| EvRun (params : RunParams)
| EvReload (c : Container)
| EvSleep (secs : Z)
| EvStop (c : Container)
| EvClose.

(** The mutable world: the clock ([time.time()], in seconds), the number of
    [reload()] calls the engine has answered, the [status] attribute of the
    container object as the last [reload()] left it, and the trace. *)
Record World : Type := {
  now : Q;
  polls : nat;
  status : string;
  trace : list event
}.

(** ** The runner object *)
Record Runner : Type := {
  _model_base_path : string;
  _model_name : string;
  _model_version : Z;
  _binary_kind : BinaryKind;
  _container : option Container;
  _endpoint : option string
}.

Record State : Type := { self : Runner; world : World }.

(** ** A state and exception monad for the methods *)
Definition M (A : Type) : Type := State -> result A * State.

Definition ret {A} (a : A) : M A := fun s => (Ok a, s).

Definition raise {A} (e : exn) : M A := fun s => (Raise e, s).

Definition out_of_fuel {A} : M A := fun s => (OutOfFuel, s).

Definition bind {A B} (m : M A) (k : A -> M B) : M B :=
  fun s =>
    match m s with
    | (Ok a, s') => k a s'
    | (Raise e, s') => (Raise e, s')
    | (OutOfFuel, s') => (OutOfFuel, s')
    end.

Declare Scope py_scope.
Delimit Scope py_scope with py.
Notation "x <- m ;; k" := (bind m (fun x => k))
  (at level 61, m at next level, right associativity) : py_scope.
Notation "m ;; k" := (bind m (fun _ => k))
  (at level 61, right associativity) : py_scope.
Local Open Scope py_scope.

(** [try: body except e: handler]. *)
Definition try_except {A} (body : M A) (e : exn) (handler : M A) : M A :=
  fun s =>
    match body s with
    | (Raise e', s') => if exn_eqb e' e then handler s' else (Raise e', s')
    | r => r
    end.

(** [assert b]. *)
Definition assert_ (b : bool) : M unit :=
  if b then ret tt else raise AssertionError.

Definition lift {A} (r : reply A) : M A := fun s => (of_reply r, s).

Definition get_self : M Runner := fun s => (Ok (self s), s).

Definition get_world : M World := fun s => (Ok (world s), s).

Definition modify_self (f : Runner -> Runner) : M unit :=
  fun s => (Ok tt, {| self := f (self s); world := world s |}).

Definition modify_world (f : World -> World) : M unit :=
  fun s => (Ok tt, {| self := self s; world := f (world s) |}).

Definition set_container (c : option Container) (r : Runner) : Runner :=
  {| _model_base_path := _model_base_path r; _model_name := _model_name r;
     _model_version := _model_version r; _binary_kind := _binary_kind r;
     _container := c; _endpoint := _endpoint r |}.

Definition set_endpoint (e : option string) (r : Runner) : Runner :=
  {| _model_base_path := _model_base_path r; _model_name := _model_name r;
     _model_version := _model_version r; _binary_kind := _binary_kind r;
     _container := _container r; _endpoint := e |}.

Definition log_event (ev : event) (w : World) : World :=
  {| now := now w; polls := polls w; status := status w;
     trace := ev :: trace w |}.

(** The world after [time.sleep(secs)]. *)
Definition sleep_world (secs : Z) (w : World) : World :=
  {| now := (now w + inject_Z secs)%Q; polls := polls w; status := status w;
     trace := EvSleep secs :: trace w |}.

(** The world after a [reload()] of container [c]: the engine has answered
    the next scripted reply after the scripted time; a status it returned
    is stored in the container object. *)
Definition reload_world (env : Env) (c : Container) (w : World) : World :=
  {| now := (now w + seconds (reload_time env (polls w)))%Q;
     polls := S (polls w);
     status := match reload_reply env (polls w) with
               | Returns st => st
               | Fails _ => status w
               end;
     trace := EvReload c :: trace w |}.

(** [time.time()]. *)
Definition time_time : M Q := w <- get_world ;; ret (now w).

(** [time.sleep(secs)]. *)
Definition time_sleep (secs : Z) : M unit := modify_world (sleep_world secs).

(** [container.reload()]. *)
Definition container_reload (env : Env) (c : Container) : M unit :=
  w <- get_world ;;
  modify_world (reload_world env c) ;;
  match reload_reply env (polls w) with
  | Returns _ => ret tt
  | Fails e => raise e
  end.

(** [container.status]. *)
Definition container_status : M string := w <- get_world ;; ret (status w).

(** [container.stop()]. *)
Definition container_stop (env : Env) (c : Container) : M unit :=
  modify_world (log_event (EvStop c)) ;;
  lift (stop_reply env c).

(** [self._docker.containers.run], called with [run_params] as keyword
    arguments. *)
Definition containers_run (env : Env) (params : RunParams) : M Container :=
  modify_world (log_event (EvRun params)) ;;
  lift (run_reply env params).

(** [self._docker.close()]. *)
Definition docker_close : M unit := modify_world (log_event EvClose).

(** [_find_available_port()]: the port the host hands out, or the error of
    the socket calls. *)
Definition _find_available_port (env : Env) : M Z := lift (free_port env).

(** ** [_make_docker_client] *)

(** Modelled from the spec: the message [LocalDockerConfig] of
    [infra_validator_pb2] is not among the sources.  It carries three
    optional settings of the engine client; a number left unset reads as 0
    and a string left unset as the empty string. *)
Record LocalDockerConfig : Type := {
  client_timeout_seconds : Z;
  client_base_url : string;
  client_api_version : string
}.

Inductive pyvalue : Type :=
| PyInt (n : Z)
| PyStr (s : string).

(** A [dict] with string keys: its items in insertion order. *)
Definition pydict : Type := list (string * pyvalue).

(** [d[k] = v]. *)
Fixpoint dict_set (k : string) (v : pyvalue) (d : pydict) : pydict :=
  match d with
  | [] => [(k, v)]
  | (k', v') :: d' =>
      if String.eqb k' k then (k, v) :: d' else (k', v') :: dict_set k v d'
  end.

(** [d.get(k)]. *)
Fixpoint dict_get (k : string) (d : pydict) : option pyvalue :=
  match d with
  | [] => None
  | (k', v) :: d' => if String.eqb k' k then Some v else dict_get k d'
  end.

(** [[
def _make_docker_client(config):
  params = {}
  if config.client_timeout_seconds:
    params['timeout'] = config.client_timeout_seconds
  if config.client_base_url:
    params['base_url'] = config.client_base_url
  if config.client_api_version:
    params['version'] = config.client_api_version
  return docker.DockerClient(params...)
    ]]
    The model returns the keyword arguments the client is built from;
    what [docker.DockerClient] answers to them is for the caller's
    environment to say. *)
Definition _make_docker_client (config : LocalDockerConfig) : pydict :=
  let params := [] in
  let params :=
    if negb (client_timeout_seconds config =? 0)
    then dict_set "timeout" (PyInt (client_timeout_seconds config)) params
    else params in
  let params :=
    if Py.truthy (client_base_url config)
    then dict_set "base_url" (PyStr (client_base_url config)) params
    else params in
  let params :=
    if Py.truthy (client_api_version config)
    then dict_set "version" (PyStr (client_api_version config)) params
    else params in
  params.

(** ** The methods of [LocalDockerRunner] *)

Definition _POLLING_INTERVAL_SEC : Z := 1.

(** [__init__], from the serving model path of the model artifact
    ([path_utils.serving_model_path(model.uri)]), the binary kind, and the
    model name and docker settings of the serving spec.
    [[
    base_path, model_name, version = _parse_model_path(...)
    if model_name != serving_spec.model_name:
      raise ValueError(...)
    self._model_base_path = base_path
    ...
    self._docker = _make_docker_client(serving_spec.local_docker)
    self._container = None
    self._endpoint = None
    ]]
    [new_client] is what [docker.DockerClient] answers to its keyword
    arguments: a client, or an error, which leaves the constructor.  The
    client itself is not kept in the runner record: the requests made
    through it are the run, stop and close events of the world. *)
Definition __init__ (max_str_digits : nat) (new_client : pydict -> reply unit)
    (serving_model_path : string) (binary_kind : BinaryKind)
    (serving_spec_model_name : string)
    (serving_spec_local_docker : LocalDockerConfig) : result Runner :=
  match _parse_model_path max_str_digits serving_model_path with
  | Ok (base_path, model_name, version) =>
      if negb (String.eqb model_name serving_spec_model_name)
      then Raise ValueError
      else
        match new_client (_make_docker_client serving_spec_local_docker) with
        | Returns _ =>
            Ok {| _model_base_path := base_path; _model_name := model_name;
                  _model_version := version; _binary_kind := binary_kind;
                  _container := None; _endpoint := None |}
        | Fails e => Raise e
        end
  | Raise e => Raise e
  | OutOfFuel => OutOfFuel
  end.

Definition _model_path (r : Runner) : string :=
  posixpath.join (_model_base_path r) [_model_name r].

Definition _model_version_path (r : Runner) : string :=
  posixpath.join (_model_base_path r) [_model_name r; Py.str (_model_version r)].

Definition is_None {A} (o : option A) : bool :=
  match o with
  | None => true
  | Some _ => false
  end.

(** [[
  def GetEndpoint(self):
    assert self._endpoint is not None, (...)
    return self._endpoint
  ]] *)
Definition GetEndpoint : M string :=
  r <- get_self ;;
  match _endpoint r with
  | None => raise AssertionError
  | Some e => ret e
  end.

(** [[
  def Start(self):
    assert self._container is None, (...)
    host_port = _find_available_port()
    self._endpoint = 'localhost:{}'.format(host_port)
    if isinstance(self._binary_kind, binary_kinds.TensorFlowServing):
      is_local_model = os.path.exists(self._model_version_path)
      if is_local_model:
        run_params = self._binary_kind.MakeDockerRunParams(
            host_port=host_port, host_model_path=self._model_path)
      else:
        run_params = self._binary_kind.MakeDockerRunParams(
            host_port=host_port, model_base_path=self._model_base_path)
    else:
      raise NotImplementedError(...)
    self._container = self._docker.containers.run(run_params...)
  ]] *)
Definition tfs_run_params (env : Env) (r : Runner) (host_port : Z) : RunParams :=
  let is_local_model := path_exists env (_model_version_path r) in
  if is_local_model
  then MakeDockerRunParams (_binary_kind r) host_port None (Some (_model_path r))
  else MakeDockerRunParams (_binary_kind r) host_port
         (Some (_model_base_path r)) None.

Definition Start (env : Env) : M unit :=
  r <- get_self ;;
  assert_ (is_None (_container r)) ;;
  host_port <- _find_available_port env ;;
  modify_self (set_endpoint (Some ("localhost:" ++ Py.str host_port))) ;;
  run_params <-
    match _binary_kind r with
    | TensorFlowServing _ => ret (tfs_run_params env r host_port)
    | OtherBinaryKind _ _ => raise NotImplementedError
    end ;;
  c <- containers_run env run_params ;;
  modify_self (set_container (Some c)).

Definition Qltb (a b : Q) : bool := negb (Qle_bool b a).

(** The loop of [WaitUntilRunning], with an iteration budget:
    [[
    while time.time() < deadline:
      try:
        self._container.reload()
        status = self._container.status
      except docker_errors.NotFound:
        raise error_types.JobAborted(...)
      if status == 'created':
        time.sleep(_POLLING_INTERVAL_SEC)
        continue
      if status == 'running':
        return
      raise error_types.JobAborted(...)
    raise error_types.DeadlineExceeded(...)
    ]] *)
Fixpoint wait_loop (env : Env) (fuel : nat) (c : Container) (deadline : Q)
    : M unit :=
  match fuel with
  | O => out_of_fuel
  | S fuel' =>
      t <- time_time ;;
      if Qltb t deadline then
        st <- try_except (container_reload env c ;; container_status)
                NotFound (raise JobAborted) ;;
        if String.eqb st "created" then
          time_sleep _POLLING_INTERVAL_SEC ;;
          wait_loop env fuel' c deadline
        else if String.eqb st "running" then ret tt
        else raise JobAborted
      else raise DeadlineExceeded
  end.

(** Every iteration that loops back has slept [_POLLING_INTERVAL_SEC], so
    the whole seconds left until the deadline, plus one, bound the number
    of clock tests. *)
Definition budget (deadline t : Q) : nat :=
  S (Z.to_nat (Qceiling (deadline - t)%Q)).

(** [[
  def WaitUntilRunning(self, deadline):
    assert self._container is not None, 'container has not been started.'
    while ...
  ]] *)
Definition WaitUntilRunning (env : Env) (deadline : Q) : M unit :=
  r <- get_self ;;
  match _container r with
  | None => raise AssertionError
  | Some c =>
      w <- get_world ;;
      wait_loop env (budget deadline (now w)) c deadline
  end.

(** [[
  def Stop(self):
    if self._container:
      logging.info('Stopping container.')
      self._container.stop()
    self._docker.close()
  ]]
    A container object is true, [None] is false.  The calls to [logging]
    are left out, here and in [Start]. *)
Definition Stop (env : Env) : M unit :=
  r <- get_self ;;
  match _container r with
  | Some c => container_stop env c
  | None => ret tt
  end ;;
  docker_close.

(** The clock at the loop test of the [j]-th iteration from a start at time
    [t] with [p] polls answered, when every iteration before it slept. *)
Fixpoint poll_time (env : Env) (t : Q) (p : nat) (j : nat) : Q :=
  match j with
  | O => t
  | S j' =>
      poll_time env
        (t + seconds (reload_time env p) + inject_Z _POLLING_INTERVAL_SEC)%Q
        (S p) j'
  end.

(** The sleeps of a trace (their lengths, newest first) and the number of
    its status refreshes. *)
Fixpoint sleeps (tr : list event) : list Z :=
  match tr with
  | [] => []
  | EvSleep secs :: tr' => secs :: sleeps tr'
  | _ :: tr' => sleeps tr'
  end.

Fixpoint reloads (tr : list event) : nat :=
  match tr with
  | [] => O
  | EvReload _ :: tr' => S (reloads tr')
  | _ :: tr' => reloads tr'
  end.

(** [k] rounds of the loop that found the container created: a refresh,
    then a sleep. *)
Fixpoint created_rounds (c : Container) (k : nat) (tr : list event)
    : list event :=
  match k with
  | O => tr
  | S k' =>
      created_rounds c k' (EvSleep _POLLING_INTERVAL_SEC :: EvReload c :: tr)
  end.

(** A reply that ends the wait as aborted: "not found", or a status other
    than created and running. *)
Definition aborting (r : reply string) : bool :=
  match r with
  | Returns st => negb (String.eqb st "created") && negb (String.eqb st "running")
  | Fails NotFound => true
  | Fails _ => false
  end.

(** An environment that raises no [AssertionError] of its own. *)
Definition no_assertion_error {A} (r : reply A) : Prop :=
  r <> Fails AssertionError.

(** ** Sample data: a scripted engine and a runner *)

(** An engine that answers the polls with [script] and then with [rest];
    [run] and [stop] answer as given; a reload takes half a second. *)
Definition scripted_env (run : reply Container) (script : list (reply string))
    (rest : reply string) (stop : reply unit) : Env :=
  {| free_port := Returns 8500;
     path_exists := fun _ => true;
     run_reply := fun _ => run;
     reload_reply := fun i => nth i script rest;
     reload_time := fun _ => (1%N, 2%positive);
     stop_reply := fun _ => stop |}.

Definition sample_container : Container := {| container_id := 7 |}.

Definition fresh_runner (kind : BinaryKind) : Runner :=
  {| _model_base_path := "/tmp/serving"; _model_name := "my_model";
     _model_version := 3; _binary_kind := kind;
     _container := None; _endpoint := None |}.

Definition started_runner : Runner :=
  {| _model_base_path := "/tmp/serving"; _model_name := "my_model";
     _model_version := 3; _binary_kind := TensorFlowServing "tensorflow/serving";
     _container := Some sample_container;
     _endpoint := Some "localhost:8500" |}.

Definition initial_world : World :=
  {| now := 0%Q; polls := O; status := "created"; trace := [] |}.

Definition fresh_state (kind : BinaryKind) : State :=
  {| self := fresh_runner kind; world := initial_world |}.

Definition started_state : State :=
  {| self := started_runner; world := initial_world |}.

(** ** Further definitions: the loop round by round *)

(** The world after [k] rounds of the loop that found the container
    created: each round is a refresh and a sleep. *)
Fixpoint after_rounds (env : Env) (c : Container) (k : nat) (w : World)
    : World :=
  match k with
  | O => w
  | S k' =>
      after_rounds env c k'
        (sleep_world _POLLING_INTERVAL_SEC (reload_world env c w))
  end.

(** How the loop body ends on a reply other than created: it returns on
    running, raises [JobAborted] on "not found" and on any other status,
    and lets any other error of the engine through. *)
Definition poll_outcome (r : reply string) : result unit :=
  match r with
  | Returns st =>
      if String.eqb st "running" then Ok tt else Raise JobAborted
  | Fails NotFound => Raise JobAborted
  | Fails e => Raise e
  end.

(** A string made of separators only (the empty string is one). *)
Definition all_sep (s : string) : bool :=
  String.eqb s (Py.repeat_char posixpath.sep (String.length s)).

(** ** [LocalDockerRunner.__repr__] *)
Definition __repr__ (r : Runner) : string :=
  "LocalDockerRunner(image: " ++ image_of (_binary_kind r) ++ ")".

(** ** The counting loop of [train_dummy_model]
    ([tfx/orchestration/local/local_pipeline_test.py])

    [[
  seen_count = collections.defaultdict(int)
  most_seen_count = 0
  most_seen_record = None
  for record in records:
    seen_count[record] += 1
    if seen_count[record] > most_seen_count:
      most_seen_count = seen_count[record]
      most_seen_record = record
    ]]
    The records are values of a type [A] compared by [A_eqb]; the
    [defaultdict(int)] is a function that reads 0 where nothing was
    counted.  The division and the comparison of floating-point numbers
    that follow the loop are left out. *)
Section TrainDummyModel.
Variables (A : Type) (A_eqb : A -> A -> bool).

Record tally : Type := {
  seen_count : A -> Z;
  most_seen_count : Z;
  most_seen_record : option A
}.

Definition tally_init : tally :=
  {| seen_count := fun _ => 0; most_seen_count := 0;
     most_seen_record := None |}.

Definition tally_step (t : tally) (record : A) : tally :=
  let seen := fun x =>
    if A_eqb x record then seen_count t record + 1 else seen_count t x in
  if most_seen_count t <? seen record
  then {| seen_count := seen; most_seen_count := seen record;
          most_seen_record := Some record |}
  else {| seen_count := seen; most_seen_count := most_seen_count t;
          most_seen_record := most_seen_record t |}.

Definition tally_records (records : list A) : tally :=
  fold_left tally_step records tally_init.

(** The number of times [x] occurs in [l]. *)
Fixpoint occurrences (x : A) (l : list A) : Z :=
  match l with
  | [] => 0
  | y :: l' => (if A_eqb x y then 1 else 0) + occurrences x l'
  end.

End TrainDummyModel.

Arguments seen_count {A} t x.
Arguments most_seen_count {A} t.
Arguments most_seen_record {A} t.

(* ================================================================== *)
(** * Part II: properties                                              *)
(* ================================================================== *)

(** ** The clock *)

Lemma Qltb_lt (a b : Q) : Qltb a b = true <-> (a < b)%Q.
Proof.
  unfold Qltb. rewrite negb_true_iff.
  destruct (Qle_bool b a) eqn:E.
  - apply Qle_bool_iff in E. split; [discriminate | intros H; lra].
  - split; [intros _ | reflexivity].
    apply Qnot_le_lt. intros H. apply Qle_bool_iff in H. congruence.
Qed.

Lemma Qltb_ge (a b : Q) : Qltb a b = false <-> (b <= a)%Q.
Proof.
  unfold Qltb. rewrite negb_false_iff. apply Qle_bool_iff.
Qed.

Lemma seconds_nonneg (d : duration) : (0 <= seconds d)%Q.
Proof.
  destruct d as [n p]. unfold seconds, Qle. simpl. lia.
Qed.

Lemma poll_time_S env t p j :
  poll_time env t p (S j)
  = poll_time env (t + seconds (reload_time env p)
                   + inject_Z _POLLING_INTERVAL_SEC)%Q (S p) j.
Proof. reflexivity. Qed.

Lemma poll_time_ge env j : forall t p,
  (t + inject_Z (Z.of_nat j) <= poll_time env t p j)%Q.
Proof.
  induction j as [|j IH]; intros t p.
  - change (inject_Z (Z.of_nat 0)) with 0%Q. cbn [poll_time]. lra.
  - rewrite poll_time_S. specialize (IH (t + seconds (reload_time env p)
                   + inject_Z _POLLING_INTERVAL_SEC)%Q (S p)).
    pose proof (seconds_nonneg (reload_time env p)) as Hs.
    rewrite Nat2Z.inj_succ. unfold Z.succ. rewrite inject_Z_plus.
    change (inject_Z _POLLING_INTERVAL_SEC) with 1%Q in *.
    change (inject_Z 1) with 1%Q. lra.
Qed.

Lemma budget_enough (deadline t : Q) :
  (deadline - t <= inject_Z (Z.of_nat (Z.to_nat (Qceiling (deadline - t)))))%Q.
Proof.
  pose proof (Qle_ceiling (deadline - t)) as Hc.
  destruct (Z_le_gt_dec 0 (Qceiling (deadline - t))) as [Hpos|Hneg].
  - rewrite Z2Nat.id by assumption. exact Hc.
  - assert (Hz : Z.to_nat (Qceiling (deadline - t)) = 0%nat) by lia.
    rewrite Hz. change (inject_Z (Z.of_nat 0)) with 0%Q.
    assert (Hlt : (inject_Z (Qceiling (deadline - t)) <= inject_Z 0)%Q).
    { rewrite <- Zle_Qle. lia. }
    change (inject_Z 0) with 0%Q in Hlt. lra.
Qed.

(** ** One turn of the polling loop *)

Section OneTurn.
Variables (env : Env) (c : Container) (deadline : Q).

Lemma wait_loop_expired fuel s :
  (deadline <= now (world s))%Q ->
  wait_loop env (S fuel) c deadline s = (Raise DeadlineExceeded, s).
Proof.
  intros H. apply Qltb_ge in H.
  cbn [wait_loop bind time_time get_world ret]. rewrite H. reflexivity.
Qed.

Lemma wait_loop_poll fuel s :
  (now (world s) < deadline)%Q ->
  wait_loop env (S fuel) c deadline s =
  let s1 := {| self := self s; world := reload_world env c (world s) |} in
  match reload_reply env (polls (world s)) with
  | Returns st =>
      if String.eqb st "created" then
        wait_loop env fuel c deadline
          {| self := self s;
             world := sleep_world _POLLING_INTERVAL_SEC
                        (reload_world env c (world s)) |}
      else if String.eqb st "running" then (Ok tt, s1)
      else (Raise JobAborted, s1)
  | Fails NotFound => (Raise JobAborted, s1)
  | Fails e => (Raise e, s1)
  end.
Proof.
  intros H. apply Qltb_lt in H.
  cbn [wait_loop bind time_time get_world ret]. rewrite H.
  cbv [bind try_except container_reload container_status get_world
       modify_world ret raise time_sleep].
  cbn [self world polls].
  destruct (reload_reply env (polls (world s))) as [st|e] eqn:E.
  - cbn [reload_world status world self]. rewrite E.
    destruct (String.eqb st "created"); [reflexivity|].
    destruct (String.eqb st "running"); reflexivity.
  - destruct e; reflexivity.
Qed.

End OneTurn.

Lemma WaitUntilRunning_loop env deadline s c :
  _container (self s) = Some c ->
  WaitUntilRunning env deadline s
  = wait_loop env (budget deadline (now (world s))) c deadline s.
Proof.
  intros H. cbv [WaitUntilRunning bind get_self get_world ret].
  rewrite H. reflexivity.
Qed.

Lemma WaitUntilRunning_unstarted env deadline s :
  _container (self s) = None ->
  WaitUntilRunning env deadline s = (Raise AssertionError, s).
Proof.
  intros H. cbv [WaitUntilRunning bind get_self get_world ret raise].
  rewrite H. reflexivity.
Qed.

(** ** The polling loop *)

Section Polling.
Variables (env : Env) (c : Container) (deadline : Q).

(** A poll answered by an aborting reply is the last thing the loop
    does. *)
Lemma wait_loop_aborting_poll : forall fuel s res s',
  wait_loop env fuel c deadline s = (res, s') ->
  forall i, (polls (world s) <= i < polls (world s'))%nat ->
  aborting (reload_reply env i) = true ->
  res = Raise JobAborted /\ polls (world s') = S i
  /\ trace (world s')
     = EvReload c :: created_rounds c (i - polls (world s)) (trace (world s)).
Proof.
  induction fuel as [|fuel IH]; intros s res s' Hrun i Hi Hab.
  - cbn in Hrun. injection Hrun as _ <-. lia.
  - destruct (Qlt_le_dec (now (world s)) deadline) as [Hlt|Hge].
    + rewrite wait_loop_poll in Hrun by assumption. cbv zeta in Hrun.
      destruct (reload_reply env (polls (world s))) as [st|e] eqn:E.
      * destruct (String.eqb st "created") eqn:Ec.
        { destruct (Nat.eq_dec i (polls (world s))) as [->|Hne].
          - rewrite E in Hab. cbn in Hab. rewrite Ec in Hab. discriminate.
          - destruct (IH _ _ _ Hrun i) as (Hres & Hpolls & Htrace);
              [cbn; lia | assumption |].
            cbn [world sleep_world reload_world polls trace] in Htrace.
            replace (i - polls (world s))%nat
              with (S (i - S (polls (world s)))) by lia.
            repeat split; assumption. }
        assert (Hi' : i = polls (world s)).
        { destruct (String.eqb st "running");
            injection Hrun as _ <-; cbn in Hi; lia. }
        subst i. rewrite E in Hab. cbn in Hab. rewrite Ec in Hab.
        destruct (String.eqb st "running"); [discriminate|].
        injection Hrun as <- <-. rewrite Nat.sub_diag.
        repeat split.
      * assert (Hi' : i = polls (world s)).
        { destruct e; injection Hrun as _ <-; cbn in Hi; lia. }
        subst i. rewrite E in Hab.
        destruct e; try discriminate.
        injection Hrun as <- <-. rewrite Nat.sub_diag.
        repeat split.
    + rewrite wait_loop_expired in Hrun by assumption.
      injection Hrun as _ <-. lia.
Qed.

(** [k] polls that find the container created, with the clock still
    before the deadline at the next loop test: the loop is back at its
    test after [k] rounds of refresh and sleep. *)
Lemma wait_loop_created_rounds : forall k fuel s,
  (k <= fuel)%nat ->
  (forall j, (j < k)%nat ->
     reload_reply env (polls (world s) + j) = Returns "created") ->
  (poll_time env (now (world s)) (polls (world s)) k < deadline)%Q ->
  exists w',
    wait_loop env fuel c deadline s
    = wait_loop env (fuel - k) c deadline {| self := self s; world := w' |}
    /\ polls w' = (polls (world s) + k)%nat
    /\ (now w' < deadline)%Q
    /\ trace w' = created_rounds c k (trace (world s)).
Proof.
  induction k as [|k IH]; intros fuel s Hfuel Hcreated Htime.
  - exists (world s). rewrite Nat.sub_0_r, Nat.add_0_r.
    cbn [poll_time] in Htime. destruct s. repeat split. exact Htime.
  - destruct fuel as [|fuel]; [lia|].
    assert (Hlt : (now (world s) < deadline)%Q).
    { pose proof (poll_time_ge env (S k) (now (world s)) (polls (world s))) as Hge.
      assert (H0 : (0 <= inject_Z (Z.of_nat (S k)))%Q).
      { change 0%Q with (inject_Z 0). rewrite <- Zle_Qle. lia. }
      lra. }
    pose proof (Hcreated O ltac:(lia)) as Hfirst.
    rewrite Nat.add_0_r in Hfirst.
    rewrite wait_loop_poll by assumption. cbv zeta. rewrite Hfirst.
    cbn [String.eqb Ascii.eqb Bool.eqb].
    destruct (IH fuel
                {| self := self s;
                   world := sleep_world _POLLING_INTERVAL_SEC
                              (reload_world env c (world s)) |})
      as (w' & Hrun & Hpolls & Hnow & Htrace).
    + lia.
    + cbn [world self sleep_world reload_world polls]. intros j Hj.
      rewrite Nat.add_succ_comm. apply Hcreated. lia.
    + cbn [world self sleep_world reload_world polls now]. exact Htime.
    + cbn [self] in Hrun. exists w'. split; [exact Hrun|].
      cbn [world self sleep_world reload_world polls trace] in Hpolls, Htrace.
      repeat split; [lia | assumption | exact Htrace].
Qed.

(** [k] polls that find the container created and one that finds it
    running, all before the deadline. *)
Lemma wait_loop_created_then_running k fuel s :
  (k < fuel)%nat ->
  (forall j, (j < k)%nat ->
     reload_reply env (polls (world s) + j) = Returns "created") ->
  reload_reply env (polls (world s) + k) = Returns "running" ->
  (poll_time env (now (world s)) (polls (world s)) k < deadline)%Q ->
  exists w',
    wait_loop env fuel c deadline s = (Ok tt, {| self := self s; world := w' |})
    /\ polls w' = (polls (world s) + S k)%nat
    /\ trace w' = EvReload c :: created_rounds c k (trace (world s)).
Proof.
  intros Hfuel Hcreated Hrunning Htime.
  destruct (wait_loop_created_rounds k fuel s) as (w & Hrun & Hpolls & Hnow & Htrace);
    [lia | assumption | assumption |].
  rewrite Hrun. replace (fuel - k)%nat with (S (fuel - S k)) by lia.
  rewrite wait_loop_poll by exact Hnow. cbv zeta. cbn [self world].
  rewrite Hpolls, Hrunning. cbn [String.eqb Ascii.eqb Bool.eqb].
  eexists. split; [reflexivity|].
  cbn [reload_world polls trace]. rewrite Hpolls, Htrace.
  split; [lia | reflexivity].
Qed.

(** [k] polls that find the container created and one answered by an
    aborting reply, all before the deadline. *)
Lemma wait_loop_created_then_aborting k fuel s :
  (k < fuel)%nat ->
  (forall j, (j < k)%nat ->
     reload_reply env (polls (world s) + j) = Returns "created") ->
  aborting (reload_reply env (polls (world s) + k)) = true ->
  (poll_time env (now (world s)) (polls (world s)) k < deadline)%Q ->
  exists w',
    wait_loop env fuel c deadline s
    = (Raise JobAborted, {| self := self s; world := w' |})
    /\ polls w' = (polls (world s) + S k)%nat
    /\ trace w' = EvReload c :: created_rounds c k (trace (world s)).
Proof.
  intros Hfuel Hcreated Hab Htime.
  destruct (wait_loop_created_rounds k fuel s) as (w & Hrun & Hpolls & Hnow & Htrace);
    [lia | assumption | assumption |].
  rewrite Hrun. replace (fuel - k)%nat with (S (fuel - S k)) by lia.
  rewrite wait_loop_poll by exact Hnow. cbv zeta. cbn [self world].
  rewrite Hpolls.
  assert (Hend : forall w', polls w' = S (polls w) ->
            trace w' = EvReload c :: trace w ->
            polls w' = (polls (world s) + S k)%nat
            /\ trace w' = EvReload c :: created_rounds c k (trace (world s))).
  { intros w' Hp Ht. rewrite Hp, Ht, Hpolls, Htrace. split; [lia | reflexivity]. }
  destruct (reload_reply env (polls (world s) + k)) as [st|e].
  - cbn in Hab. apply andb_true_iff in Hab as [Hcr Hru].
    apply negb_true_iff in Hcr, Hru. rewrite Hcr, Hru.
    eexists. split; [reflexivity|]. apply Hend; reflexivity.
  - destruct e; try discriminate.
    eexists. split; [reflexivity|]. apply Hend; reflexivity.
Qed.

(** Only created before the deadline: the loop runs into the deadline. *)
Lemma wait_loop_only_created : forall fuel s,
  (deadline - now (world s) <= inject_Z (Z.of_nat fuel))%Q ->
  (forall j,
     (poll_time env (now (world s)) (polls (world s)) j < deadline)%Q ->
     reload_reply env (polls (world s) + j) = Returns "created") ->
  exists s',
    wait_loop env (S fuel) c deadline s = (Raise DeadlineExceeded, s')
    /\ self s' = self s
    /\ (deadline <= now (world s'))%Q.
Proof.
  induction fuel as [|fuel IH]; intros s Hfuel Hcreated.
  - change (inject_Z (Z.of_nat 0)) with 0%Q in Hfuel.
    exists s. rewrite wait_loop_expired by lra.
    repeat split. lra.
  - destruct (Qlt_le_dec (now (world s)) deadline) as [Hlt|Hge].
    + pose proof (Hcreated O Hlt) as Hfirst.
      rewrite Nat.add_0_r in Hfirst.
      rewrite wait_loop_poll by assumption. cbv zeta. rewrite Hfirst.
      cbn [String.eqb Ascii.eqb Bool.eqb].
      destruct (IH {| self := self s;
                      world := sleep_world _POLLING_INTERVAL_SEC
                                 (reload_world env c (world s)) |})
        as (s' & Hrun & Hself & Hnow).
      * cbn [world sleep_world reload_world now].
        pose proof (seconds_nonneg (reload_time env (polls (world s)))) as Hs.
        rewrite Nat2Z.inj_succ in Hfuel. unfold Z.succ in Hfuel.
        rewrite inject_Z_plus in Hfuel.
        change (inject_Z _POLLING_INTERVAL_SEC) with 1%Q.
        change (inject_Z 1) with 1%Q in Hfuel. lra.
      * cbn [world sleep_world reload_world now polls]. intros j Hj.
        rewrite Nat.add_succ_comm. apply Hcreated. exact Hj.
      * exists s'. repeat split; assumption.
    + exists s. rewrite wait_loop_expired by assumption.
      repeat split. assumption.
Qed.

(** The budget of [WaitUntilRunning] is never used up: the loop ends of
    its own accord. *)
Lemma wait_loop_total : forall fuel s,
  (deadline - now (world s) <= inject_Z (Z.of_nat fuel))%Q ->
  fst (wait_loop env (S fuel) c deadline s) <> OutOfFuel.
Proof.
  induction fuel as [|fuel IH]; intros s Hfuel.
  - change (inject_Z (Z.of_nat 0)) with 0%Q in Hfuel.
    rewrite wait_loop_expired by lra. discriminate.
  - destruct (Qlt_le_dec (now (world s)) deadline) as [Hlt|Hge].
    + rewrite wait_loop_poll by assumption. cbv zeta.
      destruct (reload_reply env (polls (world s))) as [st|e].
      * destruct (String.eqb st "created").
        { apply IH. cbn [world sleep_world reload_world now].
          pose proof (seconds_nonneg (reload_time env (polls (world s)))) as Hs.
          rewrite Nat2Z.inj_succ in Hfuel. unfold Z.succ in Hfuel.
          rewrite inject_Z_plus in Hfuel.
          change (inject_Z _POLLING_INTERVAL_SEC) with 1%Q.
          change (inject_Z 1) with 1%Q in Hfuel. lra. }
        destruct (String.eqb st "running"); discriminate.
      * destruct e; discriminate.
    + rewrite wait_loop_expired by assumption. discriminate.
Qed.

End Polling.

Lemma repeat_app_cons {A} (x : A) k l :
  (repeat x k ++ x :: l = x :: repeat x k ++ l)%list.
Proof. induction k as [|k IH]; simpl; [reflexivity | now rewrite IH]. Qed.

Lemma sleeps_created_rounds c k : forall tr,
  sleeps (created_rounds c k tr)
  = (repeat _POLLING_INTERVAL_SEC k ++ sleeps tr)%list.
Proof.
  induction k as [|k IH]; intros tr; [reflexivity|].
  cbn [created_rounds]. rewrite IH. cbn [sleeps repeat].
  apply repeat_app_cons.
Qed.

Lemma reloads_created_rounds c k : forall tr,
  reloads (created_rounds c k tr) = (reloads tr + k)%nat.
Proof.
  induction k as [|k IH]; intros tr; [simpl; lia|].
  cbn [created_rounds]. rewrite IH. cbn [reloads]. lia.
Qed.

(** [WaitUntilRunning] always comes to an end within its budget. *)
Theorem WaitUntilRunning_total env deadline s :
  fst (WaitUntilRunning env deadline s) <> OutOfFuel.
Proof.
  destruct (_container (self s)) as [c|] eqn:E.
  - rewrite (WaitUntilRunning_loop _ _ _ _ E).
    apply wait_loop_total, budget_enough.
  - rewrite WaitUntilRunning_unstarted by assumption. discriminate.
Qed.

(** ** Claims on [WaitUntilRunning] *)

(** The budget covers [k] rounds whenever the clock is before the deadline
    at the loop test that follows them. *)
Lemma budget_covers env deadline t p k :
  (poll_time env t p k < deadline)%Q -> (k < budget deadline t)%nat.
Proof.
  intros Htime.
  pose proof (poll_time_ge env k t p) as Hge.
  pose proof (budget_enough deadline t) as Hb.
  unfold budget.
  assert (Hz : (inject_Z (Z.of_nat k)
                < inject_Z (Z.of_nat (Z.to_nat (Qceiling (deadline - t)))))%Q)
    by lra.
  rewrite <- Zlt_Qlt in Hz. lia.
Qed.

(** X19.  [k] reports of created and then an aborting reply ("not found",
    or a status other than created and running), the deadline not reached
    during those polls: the call raises [JobAborted] after exactly [k]
    sleeps and [k + 1] refreshes, and the aborting refresh is the last
    event. *)
Lemma WaitUntilRunning_created_then_aborting env deadline s c k :
  _container (self s) = Some c ->
  (forall j, (j < k)%nat ->
     reload_reply env (polls (world s) + j) = Returns "created") ->
  aborting (reload_reply env (polls (world s) + k)) = true ->
  (poll_time env (now (world s)) (polls (world s)) k < deadline)%Q ->
  exists s',
    WaitUntilRunning env deadline s = (Raise JobAborted, s')
    /\ self s' = self s
    /\ polls (world s') = (polls (world s) + S k)%nat
    /\ trace (world s') = EvReload c :: created_rounds c k (trace (world s)).
Proof.
  intros Hc Hcreated Hab Htime.
  rewrite (WaitUntilRunning_loop _ _ _ _ Hc).
  destruct (wait_loop_created_then_aborting env c deadline k
              (budget deadline (now (world s))) s)
    as (w' & Hrun & Hpolls & Htrace); try assumption.
  - exact (budget_covers _ _ _ _ _ Htime).
  - eexists. split; [exact Hrun|]. cbn [self world]. auto.
Qed.

Lemma WaitUntilRunning_created_then_aborting_witness :
  let env := scripted_env (Returns sample_container)
               [Returns "created"; Returns "created"; Returns "restarting"]
               (Returns "running") (Returns tt) in
  exists s',
    WaitUntilRunning env 10%Q started_state = (Raise JobAborted, s')
    /\ self s' = started_runner
    /\ polls (world s') = 3%nat
    /\ trace (world s')
       = EvReload sample_container :: created_rounds sample_container 2 [].
Proof.
  intros env.
  apply (WaitUntilRunning_created_then_aborting env 10%Q started_state
           sample_container 2%nat).
  - reflexivity.
  - intros j Hj. destruct j as [|[|j]]; [reflexivity | reflexivity | lia].
  - reflexivity.
  - vm_compute. reflexivity.
Defined.

(** A first poll made before the deadline and answered by an aborting
    reply: the call raises [JobAborted] after that one refresh. *)
Lemma WaitUntilRunning_first_poll_aborting env deadline s c :
  _container (self s) = Some c ->
  (now (world s) < deadline)%Q ->
  aborting (reload_reply env (polls (world s))) = true ->
  WaitUntilRunning env deadline s
  = (Raise JobAborted,
     {| self := self s; world := reload_world env c (world s) |}).
Proof.
  intros Hc Hlt Hab.
  rewrite (WaitUntilRunning_loop _ _ _ _ Hc). unfold budget.
  rewrite wait_loop_poll by assumption. cbv zeta.
  destruct (reload_reply env (polls (world s))) as [st|e].
  - cbn in Hab. apply andb_true_iff in Hab as [Hcr Hru].
    apply negb_true_iff in Hcr, Hru. rewrite Hcr, Hru. reflexivity.
  - destruct e; try discriminate. reflexivity.
Qed.

(** C1.  Whenever a poll of [WaitUntilRunning] is answered by "not found"
    or by a status other than created and running, the call raises
    [JobAborted] at once: that poll is the last status refresh, and the
    trace of the call ends with it, after the rounds of refresh and sleep
    that led to it; nothing follows, no refresh and no sleep. *)
Theorem WaitUntilRunning_aborts_at_once env deadline s c res s' i :
  _container (self s) = Some c ->
  WaitUntilRunning env deadline s = (res, s') ->
  (polls (world s) <= i < polls (world s'))%nat ->
  aborting (reload_reply env i) = true ->
  res = Raise JobAborted
  /\ polls (world s') = S i
  /\ trace (world s')
     = EvReload c :: created_rounds c (i - polls (world s)) (trace (world s)).
Proof.
  intros Hc Hrun Hi Hab.
  rewrite (WaitUntilRunning_loop _ _ _ _ Hc) in Hrun.
  exact (wait_loop_aborting_poll _ _ _ _ _ _ _ Hrun i Hi Hab).
Qed.

(** The script [created, exited]: the second poll aborts the wait. *)
Lemma WaitUntilRunning_aborts_at_once_witness :
  let env := scripted_env (Returns sample_container)
               [Returns "created"; Returns "exited"] (Returns "running")
               (Returns tt) in
  let run := WaitUntilRunning env 10%Q started_state in
  fst run = Raise JobAborted
  /\ polls (world (snd run)) = 2%nat
  /\ trace (world (snd run))
     = [EvReload sample_container; EvSleep 1; EvReload sample_container].
Proof.
  intros env run.
  apply (WaitUntilRunning_aborts_at_once env 10%Q started_state
           sample_container (fst run) (snd run) 1%nat).
  - reflexivity.
  - vm_compute. reflexivity.
  - vm_compute. lia.
  - reflexivity.
Defined.

(** "Not found" on the first poll: [JobAborted] with no sleep at all. *)
Example WaitUntilRunning_not_found_first :
  let env := scripted_env (Returns sample_container) [] (Fails NotFound)
               (Returns tt) in
  let run := WaitUntilRunning env 10%Q started_state in
  fst run = Raise JobAborted
  /\ trace (world (snd run)) = [EvReload sample_container].
Proof. vm_compute. split; reflexivity. Qed.

(** C2.  [k] reports of created followed by one report of running, with
    the deadline not reached during those polls: the call returns after
    exactly [k] sleeps of the poll interval and [k + 1] status refreshes. *)
Theorem WaitUntilRunning_created_then_running env deadline s c k :
  _container (self s) = Some c ->
  (forall j, (j < k)%nat ->
     reload_reply env (polls (world s) + j) = Returns "created") ->
  reload_reply env (polls (world s) + k) = Returns "running" ->
  (poll_time env (now (world s)) (polls (world s)) k < deadline)%Q ->
  exists s',
    WaitUntilRunning env deadline s = (Ok tt, s')
    /\ self s' = self s
    /\ trace (world s') = EvReload c :: created_rounds c k (trace (world s))
    /\ sleeps (trace (world s'))
       = (repeat _POLLING_INTERVAL_SEC k ++ sleeps (trace (world s)))%list
    /\ reloads (trace (world s')) = (reloads (trace (world s)) + (k + 1))%nat.
Proof.
  intros Hc Hcreated Hrunning Htime.
  rewrite (WaitUntilRunning_loop _ _ _ _ Hc).
  destruct (wait_loop_created_then_running env c deadline k
              (budget deadline (now (world s))) s)
    as (w' & Hrun & _ & Htrace); try assumption.
  - exact (budget_covers _ _ _ _ _ Htime).
  - eexists. split; [exact Hrun|]. cbn [self world].
    rewrite Htrace. cbn [sleeps reloads].
    rewrite sleeps_created_rounds, reloads_created_rounds.
    repeat split. lia.
Qed.

(** The script [created, created, running]: success after two sleeps. *)
Lemma WaitUntilRunning_created_then_running_witness :
  let env := scripted_env (Returns sample_container)
               [Returns "created"; Returns "created"; Returns "running"]
               (Fails NotFound) (Returns tt) in
  exists s',
    WaitUntilRunning env 10%Q started_state = (Ok tt, s')
    /\ self s' = started_runner
    /\ trace (world s')
       = [EvReload sample_container;
          EvSleep 1; EvReload sample_container;
          EvSleep 1; EvReload sample_container]
    /\ sleeps (trace (world s')) = [1; 1]
    /\ reloads (trace (world s')) = 3%nat.
Proof.
  intros env.
  apply (WaitUntilRunning_created_then_running env 10%Q started_state
           sample_container 2%nat).
  - reflexivity.
  - intros j Hj. destruct j as [|[|j]]; [reflexivity | reflexivity | lia].
  - reflexivity.
  - vm_compute. reflexivity.
Defined.

(** C3.  A script that reports only created for every poll made before the
    deadline: the call raises [DeadlineExceeded], and when it does the
    clock has reached the deadline. *)
Theorem WaitUntilRunning_deadline_exceeded env deadline s c :
  _container (self s) = Some c ->
  (forall j,
     (poll_time env (now (world s)) (polls (world s)) j < deadline)%Q ->
     reload_reply env (polls (world s) + j) = Returns "created") ->
  exists s',
    WaitUntilRunning env deadline s = (Raise DeadlineExceeded, s')
    /\ self s' = self s
    /\ (deadline <= now (world s'))%Q.
Proof.
  intros Hc Hcreated.
  rewrite (WaitUntilRunning_loop _ _ _ _ Hc).
  apply wait_loop_only_created; [apply budget_enough | exact Hcreated].
Qed.

(** A constant created against a deadline three seconds away. *)
Lemma WaitUntilRunning_deadline_exceeded_witness :
  let env := scripted_env (Returns sample_container) [] (Returns "created")
               (Returns tt) in
  exists s',
    WaitUntilRunning env 3%Q started_state = (Raise DeadlineExceeded, s')
    /\ self s' = started_runner
    /\ (3 <= now (world s'))%Q.
Proof.
  intros env.
  apply (WaitUntilRunning_deadline_exceeded env 3%Q started_state
           sample_container).
  - reflexivity.
  - intros j _. cbn. destruct j as [|[|j]]; reflexivity.
Defined.

(** C10.  With a handle held and a deadline that is not after the current
    time, the call raises [DeadlineExceeded] and leaves the world as it
    was: no status refresh, no sleep, whatever the engine would answer. *)
Theorem WaitUntilRunning_deadline_already_passed env deadline s c :
  _container (self s) = Some c ->
  (deadline <= now (world s))%Q ->
  WaitUntilRunning env deadline s = (Raise DeadlineExceeded, s).
Proof.
  intros Hc Hd.
  rewrite (WaitUntilRunning_loop _ _ _ _ Hc).
  unfold budget. apply wait_loop_expired. exact Hd.
Qed.

(** A container that is already running, and a deadline equal to now. *)
Lemma WaitUntilRunning_deadline_already_passed_witness :
  let env := scripted_env (Returns sample_container) [] (Returns "running")
               (Returns tt) in
  WaitUntilRunning env 0%Q started_state
  = (Raise DeadlineExceeded, started_state).
Proof.
  intros env.
  apply (WaitUntilRunning_deadline_already_passed env 0%Q started_state
           sample_container).
  - reflexivity.
  - vm_compute. discriminate.
Defined.

(** ** [GetEndpoint], [Start] and [Stop] case by case *)

Lemma GetEndpoint_spec s :
  GetEndpoint s =
  match _endpoint (self s) with
  | None => (Raise AssertionError, s)
  | Some e => (Ok e, s)
  end.
Proof.
  cbv [GetEndpoint bind get_self ret raise].
  destruct (_endpoint (self s)); reflexivity.
Qed.

Lemma Start_spec env s :
  Start env s =
  match _container (self s) with
  | Some _ => (Raise AssertionError, s)
  | None =>
      match free_port env with
      | Fails e => (Raise e, s)
      | Returns port =>
          let r1 := set_endpoint (Some ("localhost:" ++ Py.str port)) (self s) in
          match _binary_kind (self s) with
          | OtherBinaryKind _ _ =>
              (Raise NotImplementedError, {| self := r1; world := world s |})
          | TensorFlowServing _ =>
              let params := tfs_run_params env (self s) port in
              let w1 := log_event (EvRun params) (world s) in
              match run_reply env params with
              | Returns c =>
                  (Ok tt, {| self := set_container (Some c) r1; world := w1 |})
              | Fails e => (Raise e, {| self := r1; world := w1 |})
              end
          end
      end
  end.
Proof.
  cbv [Start bind get_self assert_ is_None _find_available_port lift of_reply
       modify_self modify_world containers_run ret raise].
  cbn [self world].
  destruct (_container (self s)); [reflexivity|].
  destruct (free_port env) as [port|e]; [|reflexivity].
  destruct (_binary_kind (self s)); [|reflexivity].
  cbv zeta.
  destruct (run_reply env (tfs_run_params env (self s) port)); reflexivity.
Qed.

Lemma Stop_spec env s :
  Stop env s =
  match _container (self s) with
  | Some c =>
      let w1 := log_event (EvStop c) (world s) in
      match stop_reply env c with
      | Returns _ =>
          (Ok tt, {| self := self s; world := log_event EvClose w1 |})
      | Fails e => (Raise e, {| self := self s; world := w1 |})
      end
  | None => (Ok tt, {| self := self s; world := log_event EvClose (world s) |})
  end.
Proof.
  cbv [Stop bind get_self container_stop docker_close lift of_reply
       modify_world ret raise].
  cbn [self world].
  destruct (_container (self s)) as [c|]; [|reflexivity].
  cbv zeta. destruct (stop_reply env c); reflexivity.
Qed.

(** A runner that [__init__] has just built holds no handle and no
    endpoint. *)
Lemma __init___unstarted limit new_client path kind name config r :
  __init__ limit new_client path kind name config = Ok r ->
  _container r = None /\ _endpoint r = None.
Proof.
  unfold __init__.
  destruct (_parse_model_path limit path) as [[[b n] v]|e|]; try discriminate.
  destruct (negb (n =? name)%string); [discriminate|].
  destruct (new_client (_make_docker_client config)); [|discriminate].
  intros H. injection H as <-. split; reflexivity.
Qed.

(** ** Claims on [Start], [GetEndpoint] and [Stop] *)

(** C4, as the code has it.  When [Start] fails because the engine's run
    request raises, no container handle is stored, so the precondition of
    [Start] still holds and [WaitUntilRunning] still fails its assertion;
    but the endpoint assigned before the run request stays stored, and
    reading the endpoint afterwards returns it. *)
Theorem Start_run_failure env s port image e :
  _container (self s) = None ->
  free_port env = Returns port ->
  _binary_kind (self s) = TensorFlowServing image ->
  run_reply env (tfs_run_params env (self s) port) = Fails e ->
  exists s',
    Start env s = (Raise e, s')
    /\ trace (world s')
       = EvRun (tfs_run_params env (self s) port) :: trace (world s)
    /\ _container (self s') = None
    /\ (forall deadline,
          WaitUntilRunning env deadline s' = (Raise AssertionError, s'))
    /\ _endpoint (self s') = Some ("localhost:" ++ Py.str port)
    /\ GetEndpoint s' = (Ok ("localhost:" ++ Py.str port), s').
Proof.
  intros Hc Hport Hkind Hrun.
  rewrite Start_spec, Hc, Hport, Hkind. cbv zeta. rewrite Hrun.
  eexists. split; [reflexivity|]. cbn [self world log_event trace].
  split; [reflexivity|].
  split; [exact Hc|].
  split; [intros deadline; apply WaitUntilRunning_unstarted; exact Hc|].
  split; [reflexivity|].
  rewrite GetEndpoint_spec. reflexivity.
Qed.

Lemma Start_run_failure_witness :
  let env := scripted_env (Fails APIError) [] (Fails NotFound) (Returns tt) in
  let s := fresh_state (TensorFlowServing "tensorflow/serving") in
  exists s',
    Start env s = (Raise APIError, s')
    /\ trace (world s') = EvRun (tfs_run_params env (self s) 8500) :: []
    /\ _container (self s') = None
    /\ (forall deadline,
          WaitUntilRunning env deadline s' = (Raise AssertionError, s'))
    /\ _endpoint (self s') = Some ("localhost:" ++ Py.str 8500)
    /\ GetEndpoint s' = (Ok ("localhost:" ++ Py.str 8500), s').
Proof.
  intros env s.
  apply (Start_run_failure env s 8500 "tensorflow/serving" APIError);
    reflexivity.
Defined.

(** C4 as stated fails: the engine is unreachable, [Start] raises, and the
    endpoint can be read afterwards all the same. *)
Lemma Start_run_failure_endpoint_readable :
  let env := scripted_env (Fails APIError) [] (Fails NotFound) (Returns tt) in
  let s := fresh_state (TensorFlowServing "tensorflow/serving") in
  let s' := snd (Start env s) in
  fst (Start env s) = Raise APIError
  /\ (exists params, trace (world s') = [EvRun params])
  /\ _container (self s') = None
  /\ self s' <> self s
  /\ GetEndpoint s' = (Ok "localhost:8500", s')
  /\ fst (GetEndpoint s') <> Raise AssertionError.
Proof.
  vm_compute. repeat split; try discriminate. eexists. reflexivity.
Qed.

(** C5, as the code has it.  On a runner holding a handle, [Stop] asks the
    engine to stop the container and then closes the client when the stop
    request returns; when the stop request raises, the error goes to the
    caller and the client is not closed. *)
Theorem Stop_closes_after_stop env s c :
  _container (self s) = Some c ->
  (forall u, stop_reply env c = Returns u ->
     Stop env s
     = (Ok tt, {| self := self s;
                  world := log_event EvClose
                             (log_event (EvStop c) (world s)) |}))
  /\ (forall e, stop_reply env c = Fails e ->
        Stop env s
        = (Raise e, {| self := self s;
                       world := log_event (EvStop c) (world s) |})).
Proof.
  intros Hc. rewrite Stop_spec, Hc. cbv zeta.
  split; intros x Hx; rewrite Hx; reflexivity.
Qed.

Lemma Stop_closes_after_stop_witness :
  let stops := scripted_env (Returns sample_container) [] (Returns "running")
                 (Returns tt) in
  let fails := scripted_env (Returns sample_container) [] (Returns "running")
                 (Fails APIError) in
  Stop stops started_state
  = (Ok tt, {| self := started_runner;
               world := log_event EvClose
                          (log_event (EvStop sample_container)
                             initial_world) |})
  /\ Stop fails started_state
     = (Raise APIError, {| self := started_runner;
                           world := log_event (EvStop sample_container)
                                      initial_world |}).
Proof.
  intros stops fails. split.
  - apply (proj1 (Stop_closes_after_stop stops started_state sample_container
                    eq_refl) tt).
    reflexivity.
  - apply (proj2 (Stop_closes_after_stop fails started_state sample_container
                    eq_refl) APIError).
    reflexivity.
Defined.

(** C5 as stated fails: the stop request raises and the client is never
    closed. *)
Lemma Stop_failure_skips_close :
  let env := scripted_env (Returns sample_container) [] (Returns "running")
               (Fails APIError) in
  let s' := snd (Stop env started_state) in
  fst (Stop env started_state) = Raise APIError
  /\ trace (world s') = [EvStop sample_container]
  /\ ~ In EvClose (trace (world s')).
Proof.
  vm_compute. repeat split.
  intros [H|[]]. discriminate.
Qed.

(** C6, as the code has it.  [Stop] leaves the runner object as it was: the
    container handle is not reset.  A runner that held a handle holds it
    after [Stop], and a later [Start] fails its assertion; the precondition
    of [Start] holds after [Stop] only if it held before. *)
Theorem Stop_keeps_handle env s :
  self (snd (Stop env s)) = self s
  /\ (forall c, _container (self s) = Some c ->
        Start env (snd (Stop env s))
        = (Raise AssertionError, snd (Stop env s)))
  /\ (_container (self (snd (Stop env s))) = None ->
      _container (self s) = None).
Proof.
  assert (Hself : self (snd (Stop env s)) = self s).
  { rewrite Stop_spec. destruct (_container (self s)) as [c|]; [|reflexivity].
    cbv zeta. destruct (stop_reply env c); reflexivity. }
  repeat split.
  - exact Hself.
  - intros c Hc. rewrite Start_spec, Hself, Hc. reflexivity.
  - rewrite Hself. auto.
Qed.

Lemma Stop_keeps_handle_witness :
  let env := scripted_env (Returns sample_container) [] (Returns "running")
               (Returns tt) in
  Start env (snd (Stop env started_state))
  = (Raise AssertionError, snd (Stop env started_state)).
Proof.
  intros env.
  apply (proj1 (proj2 (Stop_keeps_handle env started_state)) sample_container).
  reflexivity.
Defined.

(** C6 as stated fails: a completed [Stop] leaves the handle in place, and
    [Start] cannot be called again. *)
Lemma Stop_leaves_handle :
  let env := scripted_env (Returns sample_container) [] (Returns "running")
               (Returns tt) in
  let s' := snd (Stop env started_state) in
  fst (Stop env started_state) = Ok tt
  /\ trace (world s') = [EvClose; EvStop sample_container]
  /\ _container (self s') = Some sample_container
  /\ Start env s' = (Raise AssertionError, s').
Proof.
  vm_compute. repeat split.
Qed.

(** C9, as the code has it.  [GetEndpoint] fails its assertion exactly when
    no endpoint is stored, which is the case for a runner on which no
    [Start] call has yet allocated a port; [Start] fails its assertion
    when a handle is held.  With an endpoint stored [GetEndpoint] returns
    it, and with no handle held [Start] raises no [AssertionError] unless
    the environment does. *)
Theorem precondition_assertions env s :
  (_endpoint (self s) = None -> GetEndpoint s = (Raise AssertionError, s))
  /\ (forall e, _endpoint (self s) = Some e -> GetEndpoint s = (Ok e, s))
  /\ (forall c, _container (self s) = Some c ->
        Start env s = (Raise AssertionError, s))
  /\ (_container (self s) = None ->
      no_assertion_error (free_port env) ->
      (forall params, no_assertion_error (run_reply env params)) ->
      fst (Start env s) <> Raise AssertionError).
Proof.
  repeat split.
  - intros H. rewrite GetEndpoint_spec, H. reflexivity.
  - intros e H. rewrite GetEndpoint_spec, H. reflexivity.
  - intros c H. rewrite Start_spec, H. reflexivity.
  - intros H Hport Hrun. rewrite Start_spec, H.
    unfold no_assertion_error in *.
    destruct (free_port env) as [port|e]; cbn [fst].
    + cbv zeta. destruct (_binary_kind (self s)); [|discriminate].
      specialize (Hrun (tfs_run_params env (self s) port)).
      destruct (run_reply env (tfs_run_params env (self s) port));
        cbn [fst]; congruence.
    + congruence.
Qed.

Lemma precondition_assertions_witness :
  let env := scripted_env (Returns sample_container) [] (Returns "running")
               (Returns tt) in
  let s := fresh_state (TensorFlowServing "tensorflow/serving") in
  GetEndpoint s = (Raise AssertionError, s)
  /\ GetEndpoint started_state = (Ok "localhost:8500", started_state)
  /\ Start env started_state = (Raise AssertionError, started_state)
  /\ fst (Start env s) <> Raise AssertionError.
Proof.
  intros env s.
  destruct (precondition_assertions env s) as (Hget & _ & _ & Hstart).
  destruct (precondition_assertions env started_state) as (_ & Hget' & Hstart' & _).
  split; [apply Hget; reflexivity|].
  split; [apply Hget'; reflexivity|].
  split; [apply (Hstart' sample_container); reflexivity|].
  apply Hstart; [reflexivity | discriminate | intros params; discriminate].
Defined.

(** C9 as stated fails: a [Start] that got past the port allocation and
    then failed (here on an unsupported binary kind) has not completed,
    and yet [GetEndpoint] returns. *)
Lemma GetEndpoint_after_failed_Start :
  let env := scripted_env (Returns sample_container) [] (Returns "running")
               (Returns tt) in
  let s := fresh_state (OtherBinaryKind "TorchServe" "pytorch/torchserve") in
  let s' := snd (Start env s) in
  fst (Start env s) = Raise NotImplementedError
  /\ _container (self s') = None
  /\ GetEndpoint s' = (Ok "localhost:8500", s')
  /\ fst (GetEndpoint s') <> Raise AssertionError.
Proof.
  vm_compute. repeat split. discriminate.
Qed.

(** ** Strings *)

Section Strings.
Import Py.

Lemma append_assoc (a b c : string) : (a ++ b) ++ c = a ++ (b ++ c).
Proof. induction a as [|x a IH]; cbn; [reflexivity | now rewrite IH]. Qed.

Lemma append_nonempty (a : string) x b : a ++ String x b <> "".
Proof. destruct a; discriminate. Qed.

Lemma all_chars_app f a b :
  all_chars f (a ++ b) = all_chars f a && all_chars f b.
Proof.
  induction a as [|x a IH]; cbn; [reflexivity|].
  rewrite IH. apply andb_assoc.
Qed.

Lemma all_chars_contains f c s :
  all_chars f s = true -> f c = false -> contains c s = false.
Proof.
  intros Hall Hc. induction s as [|x s IH]; [reflexivity|].
  cbn in *. apply andb_true_iff in Hall as [Hx Hs].
  rewrite (IH Hs), orb_false_r.
  destruct (Ascii.eqb_spec x c) as [->|]; [congruence | reflexivity].
Qed.

Lemma ord_chr z : 0 <= z < 256 -> ord (chr z) = z.
Proof.
  intros Hz. unfold ord, chr.
  rewrite N_ascii_embedding by lia. lia.
Qed.

Lemma is_decimal_digit_char d : 0 <= d < 10 -> is_decimal_char (digit_char d) = true.
Proof.
  intros Hd. unfold is_decimal_char, digit_char.
  rewrite ord_chr by lia. lia.
Qed.

Lemma digit_value_digit_char d : 0 <= d < 10 -> digit_value (digit_char d) = d.
Proof.
  intros Hd. unfold digit_value, digit_char.
  rewrite ord_chr by lia. lia.
Qed.

Lemma int_acc_app a b : forall acc,
  int_acc acc (a ++ b) = int_acc (int_acc acc a) b.
Proof. induction a as [|x a IH]; intros acc; cbn; [reflexivity | apply IH]. Qed.

Lemma digits_fuel_decimal fuel : forall n,
  0 <= n -> all_chars is_decimal_char (digits_fuel fuel n) = true.
Proof.
  induction fuel as [|fuel IH]; intros n Hn; [reflexivity|].
  cbn [digits_fuel]. destruct (Z.ltb_spec n 10).
  - cbn. rewrite is_decimal_digit_char by lia. reflexivity.
  - rewrite all_chars_app, IH by (apply Z.div_pos; lia).
    cbn. rewrite is_decimal_digit_char; [reflexivity|].
    apply Z.mod_pos_bound. lia.
Qed.

Lemma digits_fuel_nonempty fuel n : digits_fuel (S fuel) n <> "".
Proof.
  cbn [digits_fuel]. destruct (n <? 10); [discriminate|].
  apply append_nonempty.
Qed.

Lemma digits_fuel_value fuel : forall n,
  0 <= n < 2 ^ Z.of_nat fuel -> int_acc 0 (digits_fuel fuel n) = n.
Proof.
  induction fuel as [|fuel IH]; intros n Hn.
  - cbn in *. lia.
  - cbn [digits_fuel]. destruct (Z.ltb_spec n 10).
    + cbn [int_acc]. rewrite digit_value_digit_char by lia. lia.
    + rewrite int_acc_app, IH.
      * cbn [int_acc]. rewrite digit_value_digit_char by (apply Z.mod_pos_bound; lia).
        pose proof (Z.div_mod n 10 ltac:(lia)). lia.
      * rewrite Nat2Z.inj_succ, Z.pow_succ_r in Hn by lia.
        split; [apply Z.div_pos; lia|].
        apply Z.div_lt_upper_bound; lia.
Qed.

Lemma digits_bound n : 0 <= n -> n < 2 ^ Z.of_nat (S (Z.to_nat (Z.log2 n))).
Proof.
  intros Hn. rewrite Nat2Z.inj_succ, Z2Nat.id by apply Z.log2_nonneg.
  destruct (Z.eq_dec n 0) as [->|Hne]; [reflexivity|].
  apply Z.log2_spec. lia.
Qed.

(** The decimal rendering of a number that is not negative: it passes
    [isdigit], [int] reads the number back, and it holds no separator. *)
Lemma str_isdecimal n : 0 <= n -> isdecimal (str n) = true.
Proof.
  intros Hn. unfold str. destruct (Z.ltb_spec n 0); [lia|].
  unfold isdecimal, digits.
  pose proof (digits_fuel_nonempty (Z.to_nat (Z.log2 n)) n) as Hne.
  destruct (digits_fuel (S (Z.to_nat (Z.log2 n))) n) eqn:E; [congruence|].
  rewrite <- E. apply digits_fuel_decimal. exact Hn.
Qed.

Lemma isdecimal_isdigit s : isdecimal s = true -> isdigit s = true.
Proof.
  unfold isdecimal, isdigit. destruct s as [|x s]; [discriminate|].
  generalize (String x s). clear. intros s.
  induction s as [|x s IH]; [reflexivity|]. cbn.
  intros H. apply andb_true_iff in H as [Hx Hs].
  rewrite (IH Hs), andb_true_r.
  unfold is_digit_char. rewrite Hx. reflexivity.
Qed.

Lemma isdecimal_no_sep s : isdecimal s = true -> contains "/" s = false.
Proof.
  unfold isdecimal. destruct s as [|x s]; [reflexivity|].
  intros H. apply (all_chars_contains _ _ _ H). reflexivity.
Qed.

Lemma int_acc_str n : 0 <= n -> int_acc 0 (str n) = n.
Proof.
  intros Hn. unfold str. destruct (Z.ltb_spec n 0); [lia|].
  unfold digits. apply digits_fuel_value.
  split; [assumption | apply digits_bound; assumption].
Qed.

Lemma int_str limit n :
  0 <= n -> too_many_digits limit (str n) = false ->
  int limit (str n) = Ok n.
Proof.
  intros Hn Hlimit. unfold int.
  rewrite str_isdecimal, Hlimit, int_acc_str by assumption. reflexivity.
Qed.

(** *** Searching and slicing *)

Lemma rfind_absent c s : contains c s = false -> rfind c s = -1.
Proof.
  induction s as [|x s IH]; [reflexivity|]. cbn.
  intros H. apply orb_false_iff in H as [Hx Hs].
  rewrite (IH Hs), Hx. reflexivity.
Qed.

Lemma rfind_last c t : contains c t = false -> forall h,
  rfind c (h ++ String c t) = Z.of_nat (String.length h).
Proof.
  intros Ht. induction h as [|x h IH].
  - cbn. rewrite (rfind_absent _ _ Ht), Ascii.eqb_refl. reflexivity.
  - cbn [append rfind String.length]. rewrite IH.
    destruct (Z.leb_spec 0 (Z.of_nat (String.length h))); lia.
Qed.

Lemma take_app h t : take (String.length h) (h ++ t) = h.
Proof. induction h as [|x h IH]; cbn; [now destruct t | now rewrite IH]. Qed.

Lemma drop_app h t : drop (String.length h) (h ++ t) = t.
Proof. induction h as [|x h IH]; cbn; [reflexivity | exact IH]. Qed.

Lemma length_app_one h x : String.length (h ++ String x "") = S (String.length h).
Proof. induction h as [|y h IH]; cbn; [reflexivity | now rewrite IH]. Qed.

Lemma rstrip_cons c x s :
  rstrip c (String x s) =
  match rstrip c s with
  | EmptyString => if Ascii.eqb x c then EmptyString else String x EmptyString
  | r => String x r
  end.
Proof. reflexivity. Qed.

Lemma rstrip_app_sep c h : rstrip c (h ++ String c "") = rstrip c h.
Proof.
  induction h as [|x h IH].
  - cbn. rewrite Ascii.eqb_refl. reflexivity.
  - cbn [append]. rewrite !rstrip_cons, IH. reflexivity.
Qed.

Lemma rstrip_id c h : h <> "" -> endswith c h = false -> rstrip c h = h.
Proof.
  induction h as [|x h IH]; [congruence|]. intros _ Hend.
  destruct h as [|y h].
  - cbn in *. rewrite Hend. reflexivity.
  - change (endswith c (String x (String y h)))
      with (endswith c (String y h)) in Hend.
    rewrite rstrip_cons, IH by (assumption || discriminate). reflexivity.
Qed.

Lemma endswith_app c h t : t <> "" -> endswith c (h ++ t) = endswith c t.
Proof.
  intros Ht. induction h as [|x h IH]; [reflexivity|].
  cbn [append]. destruct (h ++ t) eqn:E.
  - destruct h; [cbn in E; congruence | discriminate].
  - rewrite <- IH. reflexivity.
Qed.

Lemma endswith_repeat c n : n <> O -> endswith c (repeat_char c n) = true.
Proof.
  induction n as [|n IH]; [congruence|]. intros _.
  destruct n as [|n].
  - cbn. apply Ascii.eqb_refl.
  - change (endswith c (repeat_char c (S (S n))))
      with (endswith c (repeat_char c (S n))).
    apply IH. discriminate.
Qed.

Lemma app_sep_repeat c h : forall n,
  h ++ String c "" = repeat_char c n -> h = repeat_char c (pred n).
Proof.
  induction h as [|x h IH]; intros n Hn.
  - destruct n as [|[|n]]; cbn in *; congruence.
  - destruct n as [|n]; [discriminate|].
    cbn in Hn. injection Hn as -> Hn.
    destruct n as [|n].
    + exfalso. exact (append_nonempty _ _ _ Hn).
    + apply IH in Hn. rewrite Hn. reflexivity.
Qed.

Lemma contains_endswith c s : contains c s = false -> endswith c s = false.
Proof.
  induction s as [|x s IH]; [reflexivity|]. cbn [contains].
  intros H. apply orb_false_iff in H as [Hx Hs].
  destruct s; [exact Hx | exact (IH Hs)].
Qed.

Lemma contains_startswith c s : contains c s = false -> startswith c s = false.
Proof.
  destruct s as [|x s]; [reflexivity|]. cbn.
  intros H. apply orb_false_iff in H as [Hx _]. exact Hx.
Qed.

End Strings.

(** ** [os.path.split] and [os.path.join] *)

Section Paths.
Import Py.

(** The tail of a split is what follows the last separator. *)
Lemma split_tail h t :
  contains posixpath.sep t = false ->
  snd (posixpath.split (h ++ String posixpath.sep t)) = t.
Proof.
  intros Ht. unfold posixpath.split.
  rewrite (rfind_last _ _ Ht). cbn [snd]. unfold slice_from.
  replace (Z.to_nat (Z.of_nat (String.length h) + 1))
    with (String.length (h ++ String posixpath.sep "")) by (rewrite length_app_one; lia).
  change (h ++ String posixpath.sep t)
    with (h ++ (String posixpath.sep "" ++ t)).
  rewrite <- append_assoc. apply drop_app.
Qed.

Lemma split_no_sep t :
  contains posixpath.sep t = false -> posixpath.split t = ("", t).
Proof.
  intros Ht. unfold posixpath.split.
  rewrite (rfind_absent _ _ Ht). cbn. destruct t; reflexivity.
Qed.

(** Splitting [h/t] where [h] is a proper prefix: not empty, and not
    ending in a separator. *)
Lemma split_proper h t :
  h <> "" -> endswith posixpath.sep h = false ->
  contains posixpath.sep t = false ->
  posixpath.split (h ++ String posixpath.sep t) = (h, t).
Proof.
  intros Hh Hend Ht.
  rewrite (surjective_pairing (posixpath.split _)), split_tail by assumption.
  f_equal. unfold posixpath.split. cbn [fst].
  rewrite (rfind_last _ _ Ht). unfold slice_to.
  replace (Z.to_nat (Z.of_nat (String.length h) + 1))
    with (String.length (h ++ String posixpath.sep "")) by (rewrite length_app_one; lia).
  change (h ++ String posixpath.sep t)
    with (h ++ (String posixpath.sep "" ++ t)).
  rewrite <- append_assoc, take_app.
  assert (Htruthy : truthy (h ++ String posixpath.sep "") = true)
    by (destruct h; reflexivity).
  rewrite Htruthy. cbn [andb].
  destruct (String.eqb_spec (h ++ String posixpath.sep "")
              (repeat_char posixpath.sep
                 (String.length (h ++ String posixpath.sep "")))) as [Heq|Hne].
  - exfalso. apply app_sep_repeat in Heq.
    rewrite length_app_one in Heq. cbn [pred] in Heq.
    rewrite Heq, endswith_repeat in Hend; [discriminate|].
    intros H0. rewrite H0 in Heq. cbn in Heq. congruence.
  - cbn [negb]. rewrite rstrip_app_sep. apply rstrip_id; assumption.
Qed.

Lemma join_proper a b :
  a <> "" -> endswith posixpath.sep a = false ->
  startswith posixpath.sep b = false ->
  posixpath.join_step a b = a ++ String posixpath.sep b.
Proof.
  intros Ha Hend Hb. unfold posixpath.join_step.
  rewrite Hb, Hend. destruct a; [congruence | reflexivity].
Qed.

End Paths.

(** ** Claims on [_parse_model_path] *)

Example parse_versioned_path :
  _parse_model_path Py.default_max_str_digits
    "/tmp/serving/my_model/1582072718"
  = Ok ("/tmp/serving", "my_model", 1582072718).
Proof. vm_compute. reflexivity. Qed.

(** A superscript two passes [isdigit] and is refused by [int]. *)
Example parse_superscript_version :
  let version := String (Py.chr 178) "" in
  Py.isdigit version = true
  /\ _parse_model_path Py.default_max_str_digits ("/a/b/model/" ++ version)
     = Raise ValueError.
Proof. vm_compute. split; reflexivity. Qed.

(** C7, as the code has it.  For a base path that is not empty and does
    not end in a separator, a model name that is not empty and holds no
    separator, and a version [v >= 0] whose decimal rendering is within
    the interpreter's limit on integer strings, resolving
    [base_path/model_name/str(v)] returns exactly the three components,
    and joining them again gives the path back. *)
Theorem _parse_model_path_round_trip limit base name v :
  base <> "" -> Py.endswith "/" base = false ->
  name <> "" -> Py.contains "/" name = false ->
  0 <= v ->
  Py.too_many_digits limit (Py.str v) = false ->
  _parse_model_path limit (base ++ "/" ++ name ++ "/" ++ Py.str v)
  = Ok (base, name, v)
  /\ posixpath.join base [name; Py.str v]
     = base ++ "/" ++ name ++ "/" ++ Py.str v.
Proof.
  intros Hbase Hbend Hname Hnsep Hv Hlimit.
  pose proof (str_isdecimal v Hv) as Hdec.
  pose proof (isdecimal_no_sep _ Hdec) as Hvsep.
  assert (Hhead : base ++ String posixpath.sep name <> "")
    by apply append_nonempty.
  assert (Hhend : Py.endswith posixpath.sep (base ++ String posixpath.sep name)
                  = false).
  { rewrite endswith_app by discriminate.
    destruct name as [|x name]; [congruence|].
    exact (contains_endswith _ _ Hnsep). }
  change (base ++ "/" ++ name ++ "/" ++ Py.str v)
    with (base ++ (String posixpath.sep name ++ String posixpath.sep (Py.str v))).
  rewrite <- append_assoc.
  split.
  - unfold _parse_model_path.
    rewrite split_proper by assumption.
    rewrite (isdecimal_isdigit _ Hdec). cbn [negb].
    rewrite split_proper by assumption.
    rewrite int_str by assumption. reflexivity.
  - unfold posixpath.join. cbn [fold_left].
    rewrite (join_proper base name)
      by (assumption || apply contains_startswith; assumption).
    apply join_proper; try assumption.
    apply contains_startswith; assumption.
Qed.

Lemma _parse_model_path_round_trip_witness :
  _parse_model_path Py.default_max_str_digits
    ("/tmp/serving" ++ "/" ++ "my_model" ++ "/" ++ Py.str 42)
  = Ok ("/tmp/serving", "my_model", 42)
  /\ posixpath.join "/tmp/serving" ["my_model"; Py.str 42]
     = "/tmp/serving" ++ "/" ++ "my_model" ++ "/" ++ Py.str 42.
Proof.
  apply (_parse_model_path_round_trip Py.default_max_str_digits
           "/tmp/serving" "my_model" 42);
    (discriminate || reflexivity || lia).
Defined.

(** C7 as stated fails.  With an empty base path, the path [/model/1]
    resolves to the base path [/]; with a base path that ends in a
    separator, the resolved base path has lost it and joining the
    components does not give the path back; an empty model name, or one
    that holds a separator, does not come back either; and a version of
    4301 digits is refused under the default limit on integer strings. *)
Lemma _parse_model_path_round_trip_fails :
  let limit := Py.default_max_str_digits in
  _parse_model_path limit ("" ++ "/" ++ "model" ++ "/" ++ Py.str 1)
  = Ok ("/", "model", 1)
  /\ _parse_model_path limit ("" ++ "/" ++ "model" ++ "/" ++ Py.str 1)
     <> Ok ("", "model", 1)
  /\ _parse_model_path limit
       ("/srv/models/" ++ "/" ++ "my_model" ++ "/" ++ Py.str 3)
     = Ok ("/srv/models", "my_model", 3)
  /\ posixpath.join "/srv/models" ["my_model"; Py.str 3]
     <> "/srv/models/" ++ "/" ++ "my_model" ++ "/" ++ Py.str 3
  /\ _parse_model_path limit ("/srv" ++ "/" ++ "" ++ "/" ++ Py.str 3)
     = Ok ("/", "srv", 3)
  /\ _parse_model_path limit
       ("/srv" ++ "/" ++ "team/my_model" ++ "/" ++ Py.str 3)
     = Ok ("/srv/team", "my_model", 3)
  /\ Py.isdecimal (Py.repeat_char "1" 4301) = true
  /\ _parse_model_path limit
       ("/srv" ++ "/" ++ "my_model" ++ "/" ++ Py.repeat_char "1" 4301)
     = Raise ValueError.
Proof.
  vm_compute. repeat split; discriminate.
Qed.

Lemma parse_version_not_decimal limit path model_path version :
  posixpath.split path = (model_path, version) ->
  Py.isdecimal version = false ->
  _parse_model_path limit path = Raise ValueError.
Proof.
  intros Hsplit H. unfold _parse_model_path. rewrite Hsplit.
  destruct (Py.isdigit version); [|reflexivity]. cbn [negb].
  destruct (posixpath.split model_path) as [base_path model_name].
  unfold Py.int. rewrite H. reflexivity.
Qed.

(** The last segment of a path is what follows its last separator, or the
    whole path when it holds none; a last segment that is not a non-empty
    run of decimal digits is refused. *)
Lemma _parse_model_path_rejects_last_segment limit head last :
  Py.contains "/" last = false ->
  Py.isdecimal last = false ->
  _parse_model_path limit (head ++ "/" ++ last) = Raise ValueError
  /\ _parse_model_path limit last = Raise ValueError.
Proof.
  intros Hsep Hdec. split.
  - apply (parse_version_not_decimal limit _
             (fst (posixpath.split (head ++ "/" ++ last))) last);
      [|assumption].
    rewrite (surjective_pairing (posixpath.split _)). f_equal.
    change (head ++ "/" ++ last) with (head ++ String posixpath.sep last).
    apply split_tail. assumption.
  - apply (parse_version_not_decimal limit _ "" last); [|assumption].
    apply split_no_sep. assumption.
Qed.

(** C8.  A path whose last segment (the tail of [os.path.split]) is not a
    non-empty run of decimal digits, and so does not read as an integer
    [>= 0], is refused with [ValueError], whatever the interpreter's limit
    on integer strings. *)
Theorem _parse_model_path_rejects_non_integer limit path :
  Py.isdecimal (snd (posixpath.split path)) = false ->
  _parse_model_path limit path = Raise ValueError.
Proof.
  intros H.
  apply (parse_version_not_decimal limit path (fst (posixpath.split path))
           (snd (posixpath.split path))); [|exact H].
  apply surjective_pairing.
Qed.

Lemma _parse_model_path_rejects_non_integer_witness :
  _parse_model_path Py.default_max_str_digits "/a/b/model/latest"
  = Raise ValueError.
Proof.
  apply (_parse_model_path_rejects_non_integer Py.default_max_str_digits
           "/a/b/model/latest").
  reflexivity.
Defined.

(* ================================================================== *)
(** * Part III: further properties of the code                         *)
(* ================================================================== *)

(** ** Every run of the polling loop *)

Lemma after_rounds_polls env c k : forall w,
  polls (after_rounds env c k w) = (polls w + k)%nat.
Proof.
  induction k as [|k IH]; intros w; cbn [after_rounds]; [lia|].
  rewrite IH. cbn [sleep_world reload_world polls]. lia.
Qed.

Lemma after_rounds_trace env c k : forall w,
  trace (after_rounds env c k w) = created_rounds c k (trace w).
Proof.
  induction k as [|k IH]; intros w; cbn [after_rounds created_rounds];
    [reflexivity|].
  rewrite IH. reflexivity.
Qed.

Lemma after_rounds_now env c k : forall w,
  now (after_rounds env c k w) = poll_time env (now w) (polls w) k.
Proof.
  induction k as [|k IH]; intros w; cbn [after_rounds poll_time];
    [reflexivity|].
  rewrite IH. reflexivity.
Qed.


(** The clock at a loop test that is still before the deadline bounds the
    number of rounds made so far. *)
Lemma rounds_bound env deadline t p k :
  (poll_time env t p k < deadline)%Q ->
  (S k <= Z.to_nat (Qceiling (deadline - t)))%nat.
Proof.
  intros Htime.
  pose proof (poll_time_ge env k t p) as Hge.
  pose proof (Qle_ceiling (deadline - t)) as Hc.
  assert (Hz : (inject_Z (Z.of_nat k) < inject_Z (Qceiling (deadline - t)))%Q)
    by lra.
  rewrite <- Zlt_Qlt in Hz. lia.
Qed.

Section EveryRun.
Variables (env : Env) (c : Container) (deadline : Q).

(** The loop makes some number [k] of rounds that find the container
    created, each begun before the deadline, and then either finds the
    deadline reached at its test, or makes one more refresh, answered by
    something else than created, which decides the outcome. *)
Lemma wait_loop_run : forall fuel s,
  (deadline - now (world s) <= inject_Z (Z.of_nat fuel))%Q ->
  exists k,
    (forall j, (j < k)%nat ->
       reload_reply env (polls (world s) + j) = Returns "created"
       /\ (poll_time env (now (world s)) (polls (world s)) j < deadline)%Q)
    /\ let w := after_rounds env c k (world s) in
       ((deadline <= now w)%Q
        /\ wait_loop env (S fuel) c deadline s
           = (Raise DeadlineExceeded, {| self := self s; world := w |}))
       \/ ((now w < deadline)%Q
           /\ reload_reply env (polls (world s) + k) <> Returns "created"
           /\ wait_loop env (S fuel) c deadline s
              = (poll_outcome (reload_reply env (polls (world s) + k)),
                 {| self := self s; world := reload_world env c w |})).
Proof.
  induction fuel as [|fuel IH]; intros s Hfuel.
  - change (inject_Z (Z.of_nat 0)) with 0%Q in Hfuel.
    exists O. split; [intros j Hj; lia|]. cbv zeta. left.
    cbn [after_rounds]. split; [lra|].
    rewrite wait_loop_expired by lra. destruct s; reflexivity.
  - destruct (Qlt_le_dec (now (world s)) deadline) as [Hlt|Hge].
    + destruct (reload_reply env (polls (world s))) as [st|e] eqn:E.
      * destruct (String.eqb_spec st "created") as [->|Hne].
        { destruct (IH {| self := self s;
                          world := sleep_world _POLLING_INTERVAL_SEC
                                     (reload_world env c (world s)) |})
            as (k & Hk & Hend).
          - cbn [world sleep_world reload_world now].
            pose proof (seconds_nonneg (reload_time env (polls (world s)))) as Hs.
            rewrite Nat2Z.inj_succ in Hfuel. unfold Z.succ in Hfuel.
            rewrite inject_Z_plus in Hfuel.
            change (inject_Z _POLLING_INTERVAL_SEC) with 1%Q.
            change (inject_Z 1) with 1%Q in Hfuel. lra.
          - cbn [world self sleep_world reload_world polls now] in Hk, Hend.
            exists (S k). split.
            + intros [|j] Hj.
              * rewrite Nat.add_0_r. split; assumption.
              * rewrite <- Nat.add_succ_comm. apply Hk. lia.
            + cbv zeta in *. cbn [after_rounds].
              rewrite <- Nat.add_succ_comm.
              rewrite (wait_loop_poll env c deadline (S fuel) s Hlt).
              cbv zeta. rewrite E. cbn [String.eqb Ascii.eqb Bool.eqb].
              exact Hend. }
        exists O. split; [intros j Hj; lia|]. cbv zeta. right.
        cbn [after_rounds]. rewrite Nat.add_0_r, E.
        split; [assumption|]. split; [congruence|].
        rewrite wait_loop_poll by assumption. cbv zeta. rewrite E.
        apply String.eqb_neq in Hne. rewrite Hne.
        cbn [poll_outcome]. destruct (String.eqb st "running"); reflexivity.
      * exists O. split; [intros j Hj; lia|]. cbv zeta. right.
        cbn [after_rounds]. rewrite Nat.add_0_r, E.
        split; [assumption|]. split; [discriminate|].
        rewrite wait_loop_poll by assumption. cbv zeta. rewrite E.
        destruct e; reflexivity.
    + exists O. split; [intros j Hj; lia|]. cbv zeta. left.
      cbn [after_rounds]. split; [assumption|].
      rewrite wait_loop_expired by assumption. destruct s; reflexivity.
Qed.

End EveryRun.

Lemma WaitUntilRunning_run env deadline s c :
  _container (self s) = Some c ->
  exists k,
    (forall j, (j < k)%nat ->
       reload_reply env (polls (world s) + j) = Returns "created"
       /\ (poll_time env (now (world s)) (polls (world s)) j < deadline)%Q)
    /\ let w := after_rounds env c k (world s) in
       ((deadline <= now w)%Q
        /\ WaitUntilRunning env deadline s
           = (Raise DeadlineExceeded, {| self := self s; world := w |}))
       \/ ((now w < deadline)%Q
           /\ reload_reply env (polls (world s) + k) <> Returns "created"
           /\ WaitUntilRunning env deadline s
              = (poll_outcome (reload_reply env (polls (world s) + k)),
                 {| self := self s; world := reload_world env c w |})).
Proof.
  intros Hc. rewrite (WaitUntilRunning_loop _ _ _ _ Hc). unfold budget.
  apply wait_loop_run, budget_enough.
Qed.

(** ** Further properties of [WaitUntilRunning] *)

(** X1.  [WaitUntilRunning] returns only after a refresh that reported
    running: that refresh is the last one of the call, the status held by
    the container object is running, and the runner object is as before. *)
Theorem WaitUntilRunning_returns_only_on_running env deadline s c s' :
  _container (self s) = Some c ->
  WaitUntilRunning env deadline s = (Ok tt, s') ->
  exists i,
    (polls (world s) <= i)%nat
    /\ polls (world s') = S i
    /\ reload_reply env i = Returns "running"
    /\ status (world s') = "running"
    /\ self s' = self s.
Proof.
  intros Hc Hrun.
  destruct (WaitUntilRunning_run env deadline s c Hc) as (k & _ & Hend).
  cbv zeta in Hend. destruct Hend as [[_ H]|(_ & _ & H)];
    rewrite H in Hrun; [discriminate|].
  exists (polls (world s) + k)%nat.
  destruct (reload_reply env (polls (world s) + k)) as [st|e] eqn:E.
  - cbn [poll_outcome] in Hrun.
    destruct (String.eqb_spec st "running") as [->|]; [|discriminate].
    injection Hrun as <-. cbn [self world reload_world polls status].
    rewrite after_rounds_polls, E.
    split; [lia|]. repeat split.
  - destruct e; discriminate.
Qed.

Lemma WaitUntilRunning_returns_only_on_running_witness :
  let env := scripted_env (Returns sample_container)
               [Returns "created"; Returns "running"] (Fails NotFound)
               (Returns tt) in
  let s' := snd (WaitUntilRunning env 10%Q started_state) in
  exists i,
    (0 <= i)%nat
    /\ polls (world s') = S i
    /\ reload_reply env i = Returns "running"
    /\ status (world s') = "running"
    /\ self s' = started_runner.
Proof.
  intros env s'.
  apply (WaitUntilRunning_returns_only_on_running env 10%Q started_state
           sample_container s').
  - reflexivity.
  - vm_compute. reflexivity.
Defined.

(** X2.  An error of the engine other than "not found" is not
    reclassified: whenever a refresh made by [WaitUntilRunning] raises
    such an error, the call raises that very error, and that refresh is
    its last. *)
Theorem WaitUntilRunning_engine_error_propagates env deadline s c res s' i e :
  _container (self s) = Some c ->
  WaitUntilRunning env deadline s = (res, s') ->
  (polls (world s) <= i < polls (world s'))%nat ->
  reload_reply env i = Fails e ->
  e <> NotFound ->
  res = Raise e /\ polls (world s') = S i.
Proof.
  intros Hc Hrun Hi Hreply Hne.
  destruct (WaitUntilRunning_run env deadline s c Hc) as (k & Hk & Hend).
  cbv zeta in Hend.
  assert (Hcreated : forall j, (j < k)%nat -> i <> (polls (world s) + j)%nat).
  { intros j Hj ->. destruct (Hk j Hj) as [Hcr _]. congruence. }
  destruct Hend as [[_ H]|(_ & _ & H)]; rewrite H in Hrun;
    injection Hrun as <- <-;
    cbn [world reload_world polls] in Hi |- *;
    rewrite after_rounds_polls in Hi |- *.
  - exfalso. apply (Hcreated (i - polls (world s))%nat); lia.
  - assert (Hik : i = (polls (world s) + k)%nat).
    { destruct (Nat.eq_dec i (polls (world s) + k)) as [|Hd]; [assumption|].
      exfalso. apply (Hcreated (i - polls (world s))%nat); lia. }
    subst i. rewrite Hreply. split; [|reflexivity].
    destruct e; try reflexivity. congruence.
Qed.

Lemma WaitUntilRunning_engine_error_propagates_witness :
  let env := scripted_env (Returns sample_container)
               [Returns "created"; Fails APIError] (Returns "running")
               (Returns tt) in
  let run := WaitUntilRunning env 10%Q started_state in
  fst run = Raise APIError /\ polls (world (snd run)) = 2%nat.
Proof.
  intros env run.
  apply (WaitUntilRunning_engine_error_propagates env 10%Q started_state
           sample_container (fst run) (snd run) 1%nat APIError).
  - reflexivity.
  - vm_compute. reflexivity.
  - vm_compute. lia.
  - reflexivity.
  - discriminate.
Defined.

(** X3.  Whatever the engine answers, [WaitUntilRunning] leaves the runner
    object as it was and adds to the trace only refreshes of the held
    container and sleeps of the poll interval, in alternation and starting
    with a refresh: no run, stop or close request is made. *)
Theorem WaitUntilRunning_only_polls_and_sleeps env deadline s c :
  _container (self s) = Some c ->
  let s' := snd (WaitUntilRunning env deadline s) in
  self s' = self s
  /\ exists k,
       trace (world s') = created_rounds c k (trace (world s))
       \/ trace (world s') = EvReload c :: created_rounds c k (trace (world s)).
Proof.
  intros Hc s'. subst s'.
  destruct (WaitUntilRunning_run env deadline s c Hc) as (k & _ & Hend).
  cbv zeta in Hend.
  destruct Hend as [[_ H]|(_ & _ & H)]; rewrite H;
    cbn [snd self world reload_world trace];
    rewrite after_rounds_trace;
    (split; [reflexivity|]); exists k; [left | right]; reflexivity.
Qed.

Lemma WaitUntilRunning_only_polls_and_sleeps_witness :
  let env := scripted_env (Returns sample_container)
               [Returns "created"; Returns "paused"] (Returns "running")
               (Returns tt) in
  let s' := snd (WaitUntilRunning env 10%Q started_state) in
  self s' = started_runner
  /\ exists k,
       trace (world s') = created_rounds sample_container k []
       \/ trace (world s')
          = EvReload sample_container :: created_rounds sample_container k [].
Proof.
  intros env.
  apply (WaitUntilRunning_only_polls_and_sleeps env 10%Q started_state
           sample_container).
  reflexivity.
Defined.



(** X5.  A call of [WaitUntilRunning] makes at most as many refreshes as
    there are whole seconds, rounded up, from the current time to the
    deadline, and none when the deadline is not after the current time. *)
Theorem WaitUntilRunning_polls_bounded env deadline s :
  (polls (world (snd (WaitUntilRunning env deadline s)))
   <= polls (world s)
      + Z.to_nat (Qceiling (deadline - now (world s))))%nat.
Proof.
  destruct (_container (self s)) as [c|] eqn:Hc.
  - destruct (WaitUntilRunning_run env deadline s c Hc) as (k & Hk & Hend).
    cbv zeta in Hend. destruct Hend as [[_ H]|(Hbefore & _ & H)]; rewrite H;
      cbn [snd world reload_world polls]; rewrite after_rounds_polls.
    + destruct k as [|k]; [lia|].
      destruct (Hk k ltac:(lia)) as [_ Hlt].
      pose proof (rounds_bound _ _ _ _ _ Hlt). lia.
    + rewrite after_rounds_now in Hbefore.
      pose proof (rounds_bound _ _ _ _ _ Hbefore). lia.
  - rewrite WaitUntilRunning_unstarted by assumption. cbn [snd]. lia.
Qed.

(** ** Further properties of [Start] and [Stop] *)

(** X6.  A [Start] that goes through (no handle held, a port allocated, a
    TensorFlow Serving binary, the run request answered by a container)
    makes exactly one run request, stores the container and the endpoint
    [localhost:port]; from then on [GetEndpoint] returns that endpoint and
    a second [Start] fails its assertion and changes nothing. *)
Theorem Start_success env s port image c :
  _container (self s) = None ->
  free_port env = Returns port ->
  _binary_kind (self s) = TensorFlowServing image ->
  run_reply env (tfs_run_params env (self s) port) = Returns c ->
  exists s',
    Start env s = (Ok tt, s')
    /\ trace (world s')
       = EvRun (tfs_run_params env (self s) port) :: trace (world s)
    /\ _container (self s') = Some c
    /\ GetEndpoint s' = (Ok ("localhost:" ++ Py.str port), s')
    /\ Start env s' = (Raise AssertionError, s').
Proof.
  intros Hc Hport Hkind Hrun.
  rewrite Start_spec, Hc, Hport, Hkind. cbv zeta. rewrite Hrun.
  eexists. split; [reflexivity|]. cbn [self world log_event trace].
  split; [reflexivity|]. split; [reflexivity|].
  split; [rewrite GetEndpoint_spec; reflexivity|].
  rewrite Start_spec. reflexivity.
Qed.

Lemma Start_success_witness :
  let env := scripted_env (Returns sample_container) [] (Returns "running")
               (Returns tt) in
  let s := fresh_state (TensorFlowServing "tensorflow/serving") in
  exists s',
    Start env s = (Ok tt, s')
    /\ trace (world s') = [EvRun (tfs_run_params env (self s) 8500)]
    /\ _container (self s') = Some sample_container
    /\ GetEndpoint s' = (Ok ("localhost:" ++ Py.str 8500), s')
    /\ Start env s' = (Raise AssertionError, s').
Proof.
  intros env s.
  apply (Start_success env s 8500 "tensorflow/serving" sample_container);
    reflexivity.
Defined.

(** The ways [Start] can end. *)
Lemma Start_cases env s :
  let res := fst (Start env s) in
  let s' := snd (Start env s) in
  (_container (self s) <> None -> res = Raise AssertionError /\ s' = s)
  /\ (_container (self s) = None ->
      (res <> Ok tt /\ _container (self s') = None
       /\ (trace (world s') = trace (world s)
           \/ exists params,
                trace (world s') = EvRun params :: trace (world s)))
      \/ (exists params c,
            res = Ok tt
            /\ run_reply env params = Returns c
            /\ trace (world s') = EvRun params :: trace (world s)
            /\ _container (self s') = Some c)).
Proof.
  cbv zeta. rewrite Start_spec. split.
  - intros Hc. destruct (_container (self s)); [split; reflexivity | congruence].
  - intros Hc. rewrite Hc.
    destruct (free_port env) as [port|e].
    + cbv zeta. destruct (_binary_kind (self s)) as [image|name image].
      * destruct (run_reply env (tfs_run_params env (self s) port)) as [c|e] eqn:E.
        { right. exists (tfs_run_params env (self s) port), c.
          cbn [fst snd self world log_event trace set_container _container].
          repeat split. exact E. }
        left. cbn [fst snd self world log_event trace set_endpoint _container].
        split; [discriminate|]. split; [exact Hc|]. right. eauto.
      * left. cbn [fst snd self world set_endpoint _container].
        split; [discriminate|]. split; [exact Hc|]. left. reflexivity.
    + left. cbn [fst snd]. split; [discriminate|]. split; [exact Hc|].
      left. reflexivity.
Qed.

(** X7.  [Start] never replaces a handle and never makes more than one run
    request.  With a handle held it changes nothing at all; otherwise the
    handle it leaves is either still missing, or the container that the
    one run request of this call returned.  Whenever it raises, no handle
    is stored. *)
Theorem Start_handle_comes_from_run env s :
  let res := fst (Start env s) in
  let s' := snd (Start env s) in
  (_container (self s) <> None -> res = Raise AssertionError /\ s' = s)
  /\ (_container (self s) = None ->
      (res <> Ok tt /\ _container (self s') = None
       /\ (trace (world s') = trace (world s)
           \/ exists params,
                trace (world s') = EvRun params :: trace (world s)))
      \/ (exists params c,
            res = Ok tt
            /\ run_reply env params = Returns c
            /\ trace (world s') = EvRun params :: trace (world s)
            /\ _container (self s') = Some c)).
Proof. apply Start_cases. Qed.

Lemma Start_handle_comes_from_run_witness :
  let env := scripted_env (Returns sample_container) [] (Returns "running")
               (Returns tt) in
  fst (Start env started_state) = Raise AssertionError
  /\ snd (Start env started_state) = started_state.
Proof.
  intros env.
  apply (proj1 (Start_handle_comes_from_run env started_state)).
  discriminate.
Defined.

(** X8.  Cleaning up after a [Start] that raised: whatever made [Start]
    fail on a runner without a handle, the [Stop] that follows returns,
    sends no stop request, and closes the client. *)
Theorem Stop_after_failed_Start env s :
  _container (self s) = None ->
  fst (Start env s) <> Ok tt ->
  let s1 := snd (Start env s) in
  Stop env s1
  = (Ok tt, {| self := self s1; world := log_event EvClose (world s1) |}).
Proof.
  intros Hc Hfail s1.
  destruct (proj2 (Start_cases env s) Hc)
    as [(_ & Hnone & _)|(params & c & Hok & _)].
  - rewrite Stop_spec. subst s1. rewrite Hnone. reflexivity.
  - contradiction.
Qed.

Lemma Stop_after_failed_Start_witness :
  let env := scripted_env (Fails APIError) [] (Returns "running")
               (Returns tt) in
  let s1 := snd (Start env (fresh_state (TensorFlowServing "tensorflow/serving"))) in
  Stop env s1
  = (Ok tt, {| self := self s1; world := log_event EvClose (world s1) |}).
Proof.
  intros env.
  apply (Stop_after_failed_Start env
           (fresh_state (TensorFlowServing "tensorflow/serving"))).
  - reflexivity.
  - vm_compute. discriminate.
Defined.

(** X9.  [Stop] does not become a no-op after a first [Stop].  The handle
    is kept whatever the first call did, so a second [Stop] sends another
    stop request to the same container; the engine answers that request
    on its own account: if it returns, the client is closed (again), and
    if it raises, say because the container is gone by then, the error
    reaches the caller and the client is not closed by this call. *)
Theorem Stop_twice first second s c :
  _container (self s) = Some c ->
  let s1 := snd (Stop first s) in
  self s1 = self s
  /\ (forall u, stop_reply second c = Returns u ->
        Stop second s1
        = (Ok tt, {| self := self s;
                     world := log_event EvClose
                                (log_event (EvStop c) (world s1)) |}))
  /\ (forall e, stop_reply second c = Fails e ->
        Stop second s1
        = (Raise e, {| self := self s;
                       world := log_event (EvStop c) (world s1) |})).
Proof.
  intros Hc s1.
  assert (Hself : self s1 = self s).
  { subst s1. rewrite Stop_spec, Hc. cbv zeta.
    destruct (stop_reply first c); reflexivity. }
  split; [exact Hself|].
  split; intros x Hx; rewrite Stop_spec, Hself, Hc; cbv zeta;
    rewrite Hx; reflexivity.
Qed.

Lemma Stop_twice_witness :
  let willing := scripted_env (Returns sample_container) []
                   (Returns "running") (Returns tt) in
  let gone := scripted_env (Returns sample_container) []
                (Returns "running") (Fails NotFound) in
  let s1 := snd (Stop willing started_state) in
  trace (world s1) = [EvClose; EvStop sample_container]
  /\ self s1 = started_runner
  /\ Stop willing s1
     = (Ok tt, {| self := started_runner;
                  world := log_event EvClose
                             (log_event (EvStop sample_container)
                                (world s1)) |})
  /\ Stop gone s1
     = (Raise NotFound, {| self := started_runner;
                           world := log_event (EvStop sample_container)
                                      (world s1) |}).
Proof.
  intros willing gone s1.
  destruct (Stop_twice willing willing started_state sample_container
              eq_refl) as (Hself & Hreturns & _).
  destruct (Stop_twice willing gone started_state sample_container
              eq_refl) as (_ & _ & Hraises).
  split; [reflexivity|].
  split; [exact Hself|].
  split; [apply (Hreturns tt); reflexivity|].
  apply (Hraises NotFound). reflexivity.
Defined.

(** X10.  The whole life of a runner with a willing engine: [Start], then
    [WaitUntilRunning] over [k] reports of created and one of running
    before the deadline, then [GetEndpoint], then [Stop].  The sequence
    returns the endpoint [localhost:port], and the engine has seen, in
    this order, one run request, [k + 1] refreshes with [k] sleeps between
    them, one stop request for the container it returned, and the close
    of the client. *)
Theorem lifecycle env deadline s port image c k :
  _container (self s) = None ->
  free_port env = Returns port ->
  _binary_kind (self s) = TensorFlowServing image ->
  run_reply env (tfs_run_params env (self s) port) = Returns c ->
  (forall j, (j < k)%nat ->
     reload_reply env (polls (world s) + j) = Returns "created") ->
  reload_reply env (polls (world s) + k) = Returns "running" ->
  (poll_time env (now (world s)) (polls (world s)) k < deadline)%Q ->
  stop_reply env c = Returns tt ->
  exists s',
    (Start env ;; WaitUntilRunning env deadline ;;
     endpoint <- GetEndpoint ;; Stop env ;; ret endpoint) s
    = (Ok ("localhost:" ++ Py.str port), s')
    /\ trace (world s')
       = EvClose :: EvStop c :: EvReload c
         :: created_rounds c k
              (EvRun (tfs_run_params env (self s) port) :: trace (world s)).
Proof.
  intros Hc Hport Hkind Hrun Hcreated Hrunning Htime Hstop.
  unfold bind at 1. rewrite Start_spec, Hc, Hport, Hkind. cbv zeta.
  rewrite Hrun.
  set (s1 := {| self := set_container (Some c)
                          (set_endpoint (Some ("localhost:" ++ Py.str port))
                             (self s));
                world := log_event
                           (EvRun (tfs_run_params env (self s) port))
                           (world s) |}).
  unfold bind at 1.
  rewrite (WaitUntilRunning_loop env deadline s1 c eq_refl).
  destruct (wait_loop_created_then_running env c deadline k
              (budget deadline (now (world s1))) s1)
    as (w' & Hwait & _ & Htrace);
    [exact (budget_covers _ _ _ _ _ Htime) | exact Hcreated | exact Hrunning
     | exact Htime |].
  rewrite Hwait.
  unfold bind at 1. rewrite GetEndpoint_spec. cbn [self s1 set_container
    set_endpoint _endpoint].
  unfold bind at 1. rewrite Stop_spec.
  cbn [self world _container set_container]. cbv zeta. rewrite Hstop.
  eexists. split; [reflexivity|].
  cbn [world log_event trace]. rewrite Htrace. reflexivity.
Qed.

Lemma lifecycle_witness :
  let env := scripted_env (Returns sample_container)
               [Returns "created"; Returns "created"; Returns "running"]
               (Fails NotFound) (Returns tt) in
  let s := fresh_state (TensorFlowServing "tensorflow/serving") in
  exists s',
    (Start env ;; WaitUntilRunning env 10%Q ;;
     endpoint <- GetEndpoint ;; Stop env ;; ret endpoint) s
    = (Ok ("localhost:" ++ Py.str 8500), s')
    /\ trace (world s')
       = EvClose :: EvStop sample_container :: EvReload sample_container
         :: created_rounds sample_container 2
              (EvRun (tfs_run_params env (self s) 8500) :: []).
Proof.
  intros env s.
  apply (lifecycle env 10%Q s 8500 "tensorflow/serving" sample_container 2%nat).
  - reflexivity.
  - reflexivity.
  - reflexivity.
  - reflexivity.
  - intros j Hj. destruct j as [|[|j]]; [reflexivity | reflexivity | lia].
  - reflexivity.
  - vm_compute. reflexivity.
  - reflexivity.
Defined.

(** ** More on [os.path.split] *)

Section MorePaths.
Import Py.

Lemma append_nil_r (s : string) : s ++ "" = s.
Proof. induction s as [|x s IH]; cbn; [reflexivity | now rewrite IH]. Qed.

Lemma all_sep_cons a s :
  all_sep (String a s) = Ascii.eqb a posixpath.sep && all_sep s.
Proof. reflexivity. Qed.

Lemma all_sep_app a b : all_sep (a ++ b) = all_sep a && all_sep b.
Proof.
  induction a as [|x a IH]; [reflexivity|].
  cbn [append]. rewrite !all_sep_cons, IH. apply andb_assoc.
Qed.

Lemma all_sep_endswith s :
  all_sep s = true -> s <> "" -> endswith posixpath.sep s = true.
Proof.
  induction s as [|x s IH]; [congruence|]. intros H _.
  rewrite all_sep_cons in H. apply andb_true_iff in H as [Hx Hs].
  destruct s as [|y s]; [exact Hx|].
  change (endswith posixpath.sep (String x (String y s)))
    with (endswith posixpath.sep (String y s)).
  apply IH; [assumption | discriminate].
Qed.

Lemma all_sep_no_sep s :
  all_sep s = true -> contains posixpath.sep s = false -> s = "".
Proof.
  destruct s as [|x s]; [reflexivity|].
  rewrite all_sep_cons. cbn [contains]. intros H Hc.
  apply andb_true_iff in H as [Hx _]. rewrite Hx in Hc. discriminate.
Qed.

Lemma endswith_rstrip c s : endswith c (rstrip c s) = false.
Proof.
  induction s as [|x s IH]; [reflexivity|].
  rewrite rstrip_cons. destruct (rstrip c s) as [|y r] eqn:E.
  - destruct (Ascii.eqb x c) eqn:Ex; [reflexivity | exact Ex].
  - exact IH.
Qed.

(** A path that holds a separator falls into what precedes the last one
    and what follows it. *)
Lemma last_sep p :
  contains posixpath.sep p = true ->
  exists h t, p = h ++ String posixpath.sep t
              /\ contains posixpath.sep t = false.
Proof.
  induction p as [|x p IH]; [discriminate|]. cbn [contains]. intros H.
  destruct (contains posixpath.sep p) eqn:Ep.
  - destruct (IH eq_refl) as (h & t & -> & Ht).
    exists (String x h), t. split; [reflexivity | exact Ht].
  - rewrite orb_false_r in H. apply Ascii.eqb_eq in H as ->.
    exists "", p. split; [reflexivity | exact Ep].
Qed.

Lemma split_at_last h t :
  contains posixpath.sep t = false ->
  posixpath.split (h ++ String posixpath.sep t)
  = (let x := h ++ String posixpath.sep "" in
     if truthy x && negb (all_sep x) then rstrip posixpath.sep x else x,
     t).
Proof.
  intros Ht.
  rewrite (surjective_pairing (posixpath.split _)), split_tail by assumption.
  f_equal. unfold posixpath.split. cbn [fst].
  rewrite (rfind_last _ _ Ht). unfold slice_to.
  replace (Z.to_nat (Z.of_nat (String.length h) + 1))
    with (String.length (h ++ String posixpath.sep ""))
    by (rewrite length_app_one; lia).
  change (h ++ String posixpath.sep t)
    with (h ++ (String posixpath.sep "" ++ t)).
  rewrite <- append_assoc, take_app. reflexivity.
Qed.

Lemma split_all_sep m : all_sep m = true -> posixpath.split m = (m, "").
Proof.
  intros Hm. destruct m as [|x m]; [reflexivity|].
  assert (Hc : contains posixpath.sep (String x m) = true).
  { rewrite all_sep_cons in Hm. apply andb_true_iff in Hm as [Hx _].
    cbn [contains]. rewrite Hx. reflexivity. }
  destruct (last_sep _ Hc) as (h & t & E & Ht).
  rewrite E in Hm |- *.
  change (h ++ String posixpath.sep t)
    with (h ++ (String posixpath.sep "" ++ t)) in Hm.
  rewrite <- append_assoc, all_sep_app in Hm.
  apply andb_true_iff in Hm as [Hh Htall].
  pose proof (all_sep_no_sep _ Htall Ht) as ->.
  rewrite split_at_last by reflexivity. cbv zeta.
  rewrite Hh, andb_false_r. reflexivity.
Qed.

(** The tail of a split holds no separator. *)
Lemma split_snd_no_sep p :
  contains posixpath.sep (snd (posixpath.split p)) = false.
Proof.
  destruct (contains posixpath.sep p) eqn:Ep.
  - destruct (last_sep _ Ep) as (h & t & -> & Ht).
    rewrite split_tail; assumption.
  - rewrite split_no_sep; assumption.
Qed.

(** The head of a split ends in a separator only when it is made of
    separators. *)
Lemma split_fst_shape p :
  endswith posixpath.sep (fst (posixpath.split p)) = true ->
  all_sep (fst (posixpath.split p)) = true.
Proof.
  destruct (contains posixpath.sep p) eqn:Ep.
  - destruct (last_sep _ Ep) as (h & t & -> & Ht).
    rewrite split_at_last by assumption. cbn [fst]. cbv zeta.
    destruct (all_sep (h ++ String posixpath.sep "")) eqn:Ea.
    + rewrite andb_false_r. intros _. exact Ea.
    + rewrite andb_true_r.
      destruct (truthy (h ++ String posixpath.sep "")) eqn:Et.
      * rewrite endswith_rstrip. discriminate.
      * destruct h; discriminate.
  - rewrite split_no_sep by assumption. discriminate.
Qed.

(** The tail of a split is empty only for the empty path and for a path
    that ends in a separator. *)
Lemma split_snd_empty p :
  snd (posixpath.split p) = "" ->
  p = "" \/ endswith posixpath.sep p = true.
Proof.
  destruct (contains posixpath.sep p) eqn:Ep.
  - destruct (last_sep _ Ep) as (h & t & -> & Ht).
    rewrite split_tail by assumption. intros ->. right.
    rewrite endswith_app by discriminate. reflexivity.
  - rewrite split_no_sep by assumption. cbn [snd]. auto.
Qed.

Lemma int_acc_nonneg s : forall acc,
  all_chars is_decimal_char s = true -> 0 <= acc -> 0 <= int_acc acc s.
Proof.
  induction s as [|x s IH]; intros acc Hs Hacc; [exact Hacc|].
  cbn [all_chars] in Hs. apply andb_true_iff in Hs as [Hx Hs].
  cbn [int_acc]. apply IH; [exact Hs|].
  unfold is_decimal_char in Hx. unfold digit_value. lia.
Qed.

Lemma isdecimal_all_chars s :
  isdecimal s = true -> s <> "" /\ all_chars is_decimal_char s = true.
Proof.
  unfold isdecimal. destruct s; [discriminate|].
  intros H. split; [discriminate | exact H].
Qed.

Lemma length_append (a b : string) :
  String.length (a ++ b) = (String.length a + String.length b)%nat.
Proof. induction a as [|x a IH]; cbn; [reflexivity | now rewrite IH]. Qed.

(** A number below [10 ^ L] has at most [L] digits. *)
Lemma digits_fuel_length fuel : forall n L,
  0 <= n < 10 ^ Z.of_nat L -> (1 <= L)%nat ->
  (String.length (digits_fuel fuel n) <= L)%nat.
Proof.
  induction fuel as [|fuel IH]; intros n L Hn HL; [cbn; lia|].
  cbn [digits_fuel]. destruct (Z.ltb_spec n 10); [cbn; lia|].
  destruct L as [|L]; [lia|].
  rewrite length_append. cbn [String.length].
  rewrite Nat2Z.inj_succ, Z.pow_succ_r in Hn by lia.
  destruct L as [|L]; [cbn in Hn; lia|].
  assert (HL' : (String.length (digits_fuel fuel (n / 10)) <= S L)%nat).
  { apply IH; [|lia].
    split; [apply Z.div_pos; lia|].
    apply Z.div_lt_upper_bound; lia. }
  lia.
Qed.

Lemma int_acc_bound s : forall acc,
  all_chars is_decimal_char s = true -> 0 <= acc ->
  int_acc acc s < (acc + 1) * 10 ^ Z.of_nat (String.length s).
Proof.
  induction s as [|x s IH]; intros acc Hs Hacc.
  - cbn. lia.
  - cbn [all_chars] in Hs. apply andb_true_iff in Hs as [Hx Hs].
    cbn [int_acc String.length].
    assert (Hd : 0 <= digit_value x <= 9).
    { unfold is_decimal_char in Hx. unfold digit_value. lia. }
    specialize (IH (10 * acc + digit_value x) Hs ltac:(lia)).
    rewrite Nat2Z.inj_succ, Z.pow_succ_r by lia.
    assert (Hpow : 0 < 10 ^ Z.of_nat (String.length s))
      by (apply Z.pow_pos_nonneg; lia).
    nia.
Qed.

(** The rendering of a number is no longer than any run of decimal digits
    that reads as that number. *)
Lemma str_length_le s :
  isdecimal s = true ->
  (String.length (str (int_acc 0 s)) <= String.length s)%nat.
Proof.
  intros Hdec. apply isdecimal_all_chars in Hdec as [Hne Hall].
  pose proof (int_acc_nonneg s 0 Hall ltac:(lia)) as Hnn.
  pose proof (int_acc_bound s 0 Hall ltac:(lia)) as Hb.
  unfold str. destruct (Z.ltb_spec (int_acc 0 s) 0); [lia|].
  unfold digits. apply digits_fuel_length; [lia|].
  destruct s; [congruence | cbn; lia].
Qed.

Lemma too_many_digits_mono limit s1 s2 :
  (String.length s1 <= String.length s2)%nat ->
  too_many_digits limit s2 = false -> too_many_digits limit s1 = false.
Proof.
  unfold too_many_digits. intros Hle H.
  apply andb_false_iff in H as [H|H];
    [apply andb_false_iff in H as [H|H]|].
  - apply Nat.ltb_ge in H.
    destruct (Nat.ltb_spec 640 (String.length s1)); [lia | reflexivity].
  - rewrite H, andb_false_r. reflexivity.
  - apply Nat.ltb_ge in H.
    destruct (Nat.ltb_spec limit (String.length s1)); [lia|].
    apply andb_false_r.
Qed.

End MorePaths.

(** ** Further properties of [_parse_model_path] and [__init__] *)

(** What a successful resolution went through. *)
Lemma parse_Ok_inv limit p b n v :
  _parse_model_path limit p = Ok (b, n, v) ->
  Py.isdecimal (snd (posixpath.split p)) = true
  /\ Py.too_many_digits limit (snd (posixpath.split p)) = false
  /\ posixpath.split (fst (posixpath.split p)) = (b, n)
  /\ v = Py.int_acc 0 (snd (posixpath.split p)).
Proof.
  unfold _parse_model_path.
  destruct (posixpath.split p) as [m ver]. cbn [fst snd].
  destruct (Py.isdigit ver); [|discriminate]. cbn [negb].
  destruct (posixpath.split m) as [b' n'].
  unfold Py.int. destruct (Py.isdecimal ver); [|discriminate].
  destruct (Py.too_many_digits limit ver); [discriminate|].
  intros H. injection H as <- <- <-. repeat split.
Qed.

Lemma parse_when_decimal limit p m ver :
  posixpath.split p = (m, ver) ->
  Py.isdecimal ver = true ->
  Py.too_many_digits limit ver = false ->
  _parse_model_path limit p
  = Ok (fst (posixpath.split m), snd (posixpath.split m), Py.int_acc 0 ver).
Proof.
  intros Hsplit Hdec Hlimit. unfold _parse_model_path. rewrite Hsplit.
  rewrite (isdecimal_isdigit _ Hdec). cbn [negb].
  destruct (posixpath.split m) as [b n].
  unfold Py.int. rewrite Hdec, Hlimit. reflexivity.
Qed.

Lemma parse_invariants limit p b n v :
  _parse_model_path limit p = Ok (b, n, v) ->
  0 <= v
  /\ Py.contains "/" n = false
  /\ (Py.endswith "/" b = true -> all_sep b = true)
  /\ (n = "" -> all_sep b = true).
Proof.
  intros H. apply parse_Ok_inv in H as (Hdec & _ & Hsplit & ->).
  apply isdecimal_all_chars in Hdec as [_ Hall].
  pose proof (split_snd_no_sep (fst (posixpath.split p))) as Hn.
  pose proof (split_fst_shape (fst (posixpath.split p))) as Hb.
  pose proof (split_snd_empty (fst (posixpath.split p))) as He.
  pose proof (split_fst_shape p) as Hm.
  rewrite Hsplit in Hn, Hb, He. cbn [fst snd] in Hn, Hb, He.
  split; [apply int_acc_nonneg; [exact Hall | lia]|].
  split; [exact Hn|]. split; [exact Hb|].
  intros ->.
  assert (Hmall : all_sep (fst (posixpath.split p)) = true).
  { destruct (He eq_refl) as [E|E]; [rewrite E; reflexivity | exact (Hm E)]. }
  rewrite (split_all_sep _ Hmall) in Hsplit.
  injection Hsplit as <-. exact Hmall.
Qed.

(** The version a resolution returns can be rendered within the limit. *)
Lemma parse_version_within_limit limit p b n v :
  _parse_model_path limit p = Ok (b, n, v) ->
  Py.too_many_digits limit (Py.str v) = false.
Proof.
  intros H. apply parse_Ok_inv in H as (Hdec & Hlimit & _ & ->).
  exact (too_many_digits_mono _ _ _ (str_length_le _ Hdec) Hlimit).
Qed.

(** Joining resolved components and resolving again gives the components
    back. *)
Lemma parse_join limit b n v :
  0 <= v ->
  Py.too_many_digits limit (Py.str v) = false ->
  Py.contains "/" n = false ->
  (Py.endswith "/" b = true -> all_sep b = true) ->
  (n = "" -> all_sep b = true) ->
  _parse_model_path limit (posixpath.join b [n; Py.str v]) = Ok (b, n, v).
Proof.
  intros Hv Hlimit Hn Hb Hempty.
  pose proof (str_isdecimal v Hv) as Hdec.
  pose proof (isdecimal_no_sep _ Hdec) as Hdsep.
  pose proof (contains_startswith _ _ Hdsep) as Hdstart.
  pose proof (contains_startswith _ _ Hn) as Hnstart.
  pose proof (int_acc_str v Hv) as Hval.
  unfold posixpath.join. cbn [fold_left].
  destruct (all_sep b) eqn:Hall.
  - (* the base path is made of separators, or empty *)
    assert (Hstep : forall x, Py.startswith posixpath.sep x = false ->
              posixpath.join_step b x = b ++ x).
    { intros x Hx. unfold posixpath.join_step. rewrite Hx.
      destruct b as [|c b']; [reflexivity|].
      rewrite (all_sep_endswith _ Hall) by discriminate. reflexivity. }
    assert (Hsplitb : forall t, Py.contains posixpath.sep t = false ->
              posixpath.split (b ++ t) = (b, t)).
    { intros t Ht. destruct b as [|c b'].
      - apply split_no_sep. exact Ht.
      - assert (Hc : Py.contains posixpath.sep (String c b') = true).
        { rewrite all_sep_cons in Hall. apply andb_true_iff in Hall as [Hx _].
          cbn [Py.contains]. rewrite Hx. reflexivity. }
        destruct (last_sep _ Hc) as (h & r & E & Hr).
        rewrite E in Hall |- *.
        change (h ++ String posixpath.sep r)
          with (h ++ (String posixpath.sep "" ++ r)) in Hall.
        rewrite <- append_assoc, all_sep_app in Hall.
        apply andb_true_iff in Hall as [Hh Hrall].
        pose proof (all_sep_no_sep _ Hrall Hr) as ->.
        rewrite append_assoc. cbn [append].
        rewrite split_at_last by exact Ht. cbv zeta.
        rewrite Hh, andb_false_r. reflexivity. }
    rewrite (Hstep n Hnstart).
    destruct n as [|c n'].
    + rewrite append_nil_r, (Hstep _ Hdstart).
      rewrite (parse_when_decimal limit _ b (Py.str v));
        [|apply Hsplitb; exact Hdsep|exact Hdec|exact Hlimit].
      rewrite (split_all_sep _ Hall), Hval. reflexivity.
    + assert (Hne : b ++ String c n' <> "") by apply append_nonempty.
      assert (Hend : Py.endswith posixpath.sep (b ++ String c n') = false).
      { rewrite endswith_app by discriminate.
        exact (contains_endswith _ _ Hn). }
      rewrite join_proper by assumption.
      rewrite (parse_when_decimal limit _ (b ++ String c n') (Py.str v));
        [|apply split_proper; assumption|exact Hdec|exact Hlimit].
      rewrite (Hsplitb _ Hn), Hval. reflexivity.
  - (* a base path that does not end in a separator *)
    assert (Hbend : Py.endswith posixpath.sep b = false).
    { destruct (Py.endswith posixpath.sep b) eqn:E; [|reflexivity].
      discriminate (Hb E). }
    assert (Hbne : b <> "") by (intros ->; discriminate).
    assert (Hnne : n <> "").
    { intros ->. discriminate (Hempty eq_refl). }
    rewrite (join_proper b n) by assumption.
    assert (Hhead : b ++ String posixpath.sep n <> "") by apply append_nonempty.
    assert (Hhend : Py.endswith posixpath.sep (b ++ String posixpath.sep n)
                    = false).
    { rewrite endswith_app by discriminate.
      destruct n as [|x n']; [congruence|].
      exact (contains_endswith _ _ Hn). }
    rewrite join_proper by assumption.
    rewrite (parse_when_decimal limit _ (b ++ String posixpath.sep n) (Py.str v));
      [|apply split_proper; assumption|exact Hdec|exact Hlimit].
    rewrite split_proper by assumption. rewrite Hval. reflexivity.
Qed.

(** X11.  What [_parse_model_path] can return: the version is never
    negative, the model name never holds a separator, the base path ends
    in a separator only if it is made of separators, and the model name is
    empty only if the base path is empty or made of separators. *)
Theorem _parse_model_path_result_shape limit p b n v :
  _parse_model_path limit p = Ok (b, n, v) ->
  0 <= v
  /\ Py.contains "/" n = false
  /\ (Py.endswith "/" b = true -> all_sep b = true)
  /\ (n = "" -> all_sep b = true).
Proof. apply parse_invariants. Qed.

Lemma _parse_model_path_result_shape_witness :
  0 <= 7
  /\ Py.contains "/" "my_model" = false
  /\ (Py.endswith "/" "/srv/models" = true -> all_sep "/srv/models" = true)
  /\ ("my_model" = "" -> all_sep "/srv/models" = true).
Proof.
  apply (_parse_model_path_result_shape Py.default_max_str_digits
           "/srv/models//my_model/007").
  reflexivity.
Defined.

(** X12.  A runner that [__init__] has built can resolve its own version
    path: [_parse_model_path] applied to [_model_version_path] returns the
    base path, the model name and the version the runner holds, and the
    model name is the one of the serving spec. *)
Theorem __init___version_path_resolves limit new_client path kind name config r :
  __init__ limit new_client path kind name config = Ok r ->
  _parse_model_path limit (_model_version_path r)
  = Ok (_model_base_path r, _model_name r, _model_version r)
  /\ _model_name r = name
  /\ _binary_kind r = kind.
Proof.
  unfold __init__.
  destruct (_parse_model_path limit path) as [[[b n] v]|e|] eqn:E;
    try discriminate.
  destruct (String.eqb_spec n name) as [->|]; [|discriminate]. cbn [negb].
  destruct (new_client (_make_docker_client config)); [|discriminate].
  intros H. injection H as <-.
  unfold _model_version_path.
  cbn [_model_base_path _model_name _model_version _binary_kind].
  destruct (parse_invariants _ _ _ _ _ E) as (Hv & Hn & Hb & He).
  pose proof (parse_version_within_limit _ _ _ _ _ E) as Hlimit.
  split; [apply parse_join; assumption|]. split; reflexivity.
Qed.

Lemma __init___version_path_resolves_witness :
  let r := {| _model_base_path := "/srv/models"; _model_name := "my_model";
              _model_version := 7;
              _binary_kind := TensorFlowServing "tensorflow/serving";
              _container := None; _endpoint := None |} in
  _parse_model_path Py.default_max_str_digits (_model_version_path r)
  = Ok (_model_base_path r, _model_name r, _model_version r)
  /\ _model_name r = "my_model"
  /\ _binary_kind r = TensorFlowServing "tensorflow/serving".
Proof.
  intros r.
  apply (__init___version_path_resolves Py.default_max_str_digits
           (fun _ => Returns tt) "/srv/models//my_model/007"
           (TensorFlowServing "tensorflow/serving") "my_model"
           {| client_timeout_seconds := 0; client_base_url := "";
              client_api_version := "" |} r).
  reflexivity.
Defined.



(** X14.  The path need not have three segments.  A bare run of decimal
    digits within the interpreter's limit on integer strings resolves with
    an empty base path and an empty model name, and [name/digits] resolves
    with an empty base path: no error is raised for the missing
    segments. *)
Theorem _parse_model_path_short_paths limit digits :
  Py.isdecimal digits = true ->
  Py.too_many_digits limit digits = false ->
  _parse_model_path limit digits = Ok ("", "", Py.int_acc 0 digits)
  /\ forall name,
       name <> "" -> Py.contains "/" name = false ->
       _parse_model_path limit (name ++ "/" ++ digits)
       = Ok ("", name, Py.int_acc 0 digits).
Proof.
  intros Hdec Hlimit. pose proof (isdecimal_no_sep _ Hdec) as Hsep. split.
  - rewrite (parse_when_decimal limit _ "" digits);
      [reflexivity | apply split_no_sep; exact Hsep | exact Hdec
       | exact Hlimit].
  - intros name Hne Hn.
    change (name ++ "/" ++ digits) with (name ++ String posixpath.sep digits).
    rewrite (parse_when_decimal limit _ name digits);
      [| apply split_proper;
         [exact Hne | exact (contains_endswith _ _ Hn) | exact Hsep]
       | exact Hdec | exact Hlimit].
    rewrite (split_no_sep _ Hn). reflexivity.
Qed.

Lemma _parse_model_path_short_paths_witness :
  _parse_model_path Py.default_max_str_digits "123"
  = Ok ("", "", Py.int_acc 0 "123")
  /\ _parse_model_path Py.default_max_str_digits ("model" ++ "/" ++ "123")
     = Ok ("", "model", Py.int_acc 0 "123").
Proof.
  destruct (_parse_model_path_short_paths Py.default_max_str_digits "123"
              eq_refl eq_refl) as [Hbare Hname].
  split; [exact Hbare|].
  apply Hname; [discriminate | reflexivity].
Defined.

(** X15.  A path that ends in a separator, and the empty path, are always
    refused with [ValueError]: the version segment is then empty. *)
Theorem _parse_model_path_trailing_separator limit head :
  _parse_model_path limit (head ++ "/") = Raise ValueError
  /\ _parse_model_path limit "" = Raise ValueError.
Proof.
  split; [|reflexivity].
  apply (parse_version_not_decimal limit _
           (fst (posixpath.split (head ++ "/"))) ""); [|reflexivity].
  rewrite (surjective_pairing (posixpath.split _)). f_equal.
  change (head ++ "/") with (head ++ String posixpath.sep "").
  apply split_tail. reflexivity.
Qed.

Lemma parse_proper_path limit base name v :
  base <> "" -> Py.endswith "/" base = false ->
  name <> "" -> Py.contains "/" name = false ->
  0 <= v ->
  Py.too_many_digits limit (Py.str v) = false ->
  _parse_model_path limit (base ++ "/" ++ name ++ "/" ++ Py.str v)
  = Ok (base, name, v)
  /\ posixpath.join base [name; Py.str v]
     = base ++ "/" ++ name ++ "/" ++ Py.str v
  /\ posixpath.join base [name] = base ++ "/" ++ name.
Proof.
  intros Hbase Hbend Hname Hnsep Hv Hlimit.
  assert (Hshape : Py.endswith "/" base = true -> all_sep base = true)
    by (rewrite Hbend; discriminate).
  assert (Hempty : name = "" -> all_sep base = true) by congruence.
  pose proof (parse_join limit base name v Hv Hlimit Hnsep Hshape Hempty)
    as Hparse.
  assert (Hstep1 : posixpath.join_step base name
                   = base ++ String posixpath.sep name).
  { apply join_proper; [assumption | assumption |].
    apply contains_startswith; assumption. }
  assert (Hjoin1 : posixpath.join base [name] = base ++ "/" ++ name)
    by exact Hstep1.
  assert (Hjoin : posixpath.join base [name; Py.str v]
                  = base ++ "/" ++ name ++ "/" ++ Py.str v).
  { unfold posixpath.join. cbn [fold_left]. rewrite Hstep1.
    rewrite join_proper.
    - rewrite append_assoc. reflexivity.
    - apply append_nonempty.
    - rewrite endswith_app by discriminate.
      destruct name as [|x name']; [congruence|].
      exact (contains_endswith _ _ Hnsep).
    - apply contains_startswith, isdecimal_no_sep, str_isdecimal. exact Hv. }
  rewrite <- Hjoin. repeat split; assumption.
Qed.

(** X16.  The constructor on a well-formed serving path
    [base_path/model_name/version], the version being within the
    interpreter's limit on integer strings.  With the same model name in
    the serving spec: if the engine client can be created it builds an
    unstarted runner whose [_model_version_path] is the path it was given
    and whose [_model_path] is [base_path/model_name], and if the creation
    of the engine client raises, that error leaves the constructor.  With
    any other model name in the serving spec it raises [ValueError],
    before any client is asked for. *)
Theorem __init___on_serving_path limit new_client config base name v kind :
  base <> "" -> Py.endswith "/" base = false ->
  name <> "" -> Py.contains "/" name = false ->
  0 <= v ->
  Py.too_many_digits limit (Py.str v) = false ->
  let path := base ++ "/" ++ name ++ "/" ++ Py.str v in
  (new_client (_make_docker_client config) = Returns tt ->
   exists r,
     __init__ limit new_client path kind name config = Ok r
     /\ _model_version_path r = path
     /\ _model_path r = base ++ "/" ++ name
     /\ _container r = None /\ _endpoint r = None)
  /\ (forall e, new_client (_make_docker_client config) = Fails e ->
        __init__ limit new_client path kind name config = Raise e)
  /\ forall other, other <> name ->
       __init__ limit new_client path kind other config = Raise ValueError.
Proof.
  intros Hbase Hbend Hname Hnsep Hv Hlimit path. subst path.
  destruct (parse_proper_path limit base name v Hbase Hbend Hname Hnsep Hv
              Hlimit)
    as (Hparse & Hjoin & Hjoin1).
  unfold __init__. rewrite Hparse. split; [|split].
  - intros Hclient. rewrite String.eqb_refl, Hclient. cbn [negb].
    eexists. split; [reflexivity|].
    unfold _model_version_path, _model_path.
    cbn [_model_base_path _model_name _model_version _container _endpoint].
    repeat split; assumption.
  - intros e Hclient. rewrite String.eqb_refl, Hclient. reflexivity.
  - intros other Hne. apply not_eq_sym in Hne.
    apply String.eqb_neq in Hne. rewrite Hne. reflexivity.
Qed.

Lemma __init___on_serving_path_witness :
  let kind := TensorFlowServing "tensorflow/serving" in
  let config := {| client_timeout_seconds := 30; client_base_url := "";
                   client_api_version := "" |} in
  let path := "/tmp/serving" ++ "/" ++ "my_model" ++ "/" ++ Py.str 3 in
  let limit := Py.default_max_str_digits in
  (exists r,
     __init__ limit (fun _ => Returns tt) path kind "my_model" config = Ok r
     /\ _model_version_path r = path
     /\ _model_path r = "/tmp/serving" ++ "/" ++ "my_model"
     /\ _container r = None /\ _endpoint r = None)
  /\ __init__ limit (fun _ => Fails APIError) path kind "my_model" config
     = Raise APIError
  /\ __init__ limit (fun _ => Returns tt) path kind "other_model" config
     = Raise ValueError.
Proof.
  intros kind config path limit.
  pose proof (__init___on_serving_path limit (fun _ => Returns tt) config
                "/tmp/serving" "my_model" 3 kind) as Hok.
  pose proof (__init___on_serving_path limit (fun _ => Fails APIError) config
                "/tmp/serving" "my_model" 3 kind) as Hfail.
  cbv zeta in Hok, Hfail.
  destruct Hok as (Hbuilt & _ & Hother);
    [discriminate | reflexivity | discriminate | reflexivity | lia
     | reflexivity |].
  destruct Hfail as (_ & Hraise & _);
    [discriminate | reflexivity | discriminate | reflexivity | lia
     | reflexivity |].
  split; [apply Hbuilt; reflexivity|].
  split; [apply Hraise; reflexivity|].
  apply Hother. discriminate.
Defined.

(** ** [_make_docker_client] *)

(** X17.  The engine client is built from the settings that are set and
    from nothing else: a timeout of 0 and an empty base URL or API version
    are not handed over (the client then takes its own defaults), a set
    value is handed over unchanged under its keyword, no keyword occurs
    twice and no other keyword is used. *)
Theorem _make_docker_client_params config :
  let params := _make_docker_client config in
  dict_get "timeout" params
  = (if client_timeout_seconds config =? 0 then None
     else Some (PyInt (client_timeout_seconds config)))
  /\ dict_get "base_url" params
     = (if Py.truthy (client_base_url config)
        then Some (PyStr (client_base_url config)) else None)
  /\ dict_get "version" params
     = (if Py.truthy (client_api_version config)
        then Some (PyStr (client_api_version config)) else None)
  /\ NoDup (map fst params)
  /\ incl (map fst params) ["timeout"; "base_url"; "version"].
Proof.
  cbv zeta. unfold _make_docker_client.
  destruct (client_timeout_seconds config =? 0);
    destruct (Py.truthy (client_base_url config));
    destruct (Py.truthy (client_api_version config));
    cbn;
    (split; [reflexivity|]); (split; [reflexivity|]); (split; [reflexivity|]);
    (split;
     [repeat (apply NoDup_cons; [cbn; intuition discriminate|]); apply NoDup_nil
     |intros k Hk; cbn in Hk |- *; intuition auto]).
Qed.

(** ** The counting loop of [train_dummy_model] *)

Section MostSeen.
Variables (A : Type) (A_eqb : A -> A -> bool).
Hypothesis A_eqb_eq : forall x y, A_eqb x y = true <-> x = y.

Lemma A_eqb_refl x : A_eqb x x = true.
Proof. apply A_eqb_eq. reflexivity. Qed.

Lemma occurrences_app x l a :
  occurrences A A_eqb x (l ++ [a])%list
  = occurrences A A_eqb x l + (if A_eqb x a then 1 else 0).
Proof.
  induction l as [|y l IH]; cbn [occurrences app]; [lia|].
  rewrite IH. lia.
Qed.

Lemma occurrences_nonneg x l : 0 <= occurrences A A_eqb x l.
Proof.
  induction l as [|y l IH]; cbn [occurrences]; [lia|].
  destruct (A_eqb x y); lia.
Qed.

Lemma tally_records_snoc l a :
  tally_records A A_eqb (l ++ [a])%list
  = tally_step A A_eqb (tally_records A A_eqb l) a.
Proof. unfold tally_records. rewrite fold_left_app. reflexivity. Qed.

Lemma tally_records_spec records :
  let t := tally_records A A_eqb records in
  (forall x, seen_count t x = occurrences A A_eqb x records)
  /\ (forall x, occurrences A A_eqb x records <= most_seen_count t)
  /\ match most_seen_record t with
     | None => records = [] /\ most_seen_count t = 0
     | Some r =>
         occurrences A A_eqb r records = most_seen_count t
         /\ exists pre post,
              records = (pre ++ r :: post)%list
              /\ occurrences A A_eqb r pre + 1 = most_seen_count t
              /\ forall x, occurrences A A_eqb x pre < most_seen_count t
     end.
Proof.
  cbv zeta. induction records as [|a l IH] using rev_ind.
  - cbn. repeat split; intros; lia.
  - destruct IH as (Hseen & Hmax & Hrec).
    rewrite tally_records_snoc. unfold tally_step.
    rewrite A_eqb_refl, Hseen.
    set (t := tally_records A A_eqb l) in *.
    destruct (Z.ltb_spec (most_seen_count t) (occurrences A A_eqb a l + 1))
      as [Hlt|Hge];
      cbn [seen_count most_seen_count most_seen_record].
    + split; [|split; [|split]].
      * intros x. rewrite occurrences_app, Hseen.
        destruct (A_eqb x a) eqn:E; [|lia].
        apply A_eqb_eq in E. subst x. reflexivity.
      * intros x. rewrite occurrences_app.
        destruct (A_eqb x a) eqn:E.
        -- apply A_eqb_eq in E. subst x. lia.
        -- specialize (Hmax x). lia.
      * rewrite occurrences_app, A_eqb_refl. reflexivity.
      * exists l, []. split; [reflexivity|]. split; [reflexivity|].
        intros x. specialize (Hmax x). lia.
    + split; [|split].
      * intros x. rewrite occurrences_app, Hseen.
        destruct (A_eqb x a) eqn:E; [|lia].
        apply A_eqb_eq in E. subst x. reflexivity.
      * intros x. rewrite occurrences_app.
        destruct (A_eqb x a) eqn:E.
        -- apply A_eqb_eq in E. subst x. lia.
        -- specialize (Hmax x). lia.
      * destruct (most_seen_record t) as [r|].
        -- destruct Hrec as (Hr & pre & post & Hl & Hpre & Hless).
           split.
           ++ rewrite occurrences_app.
              destruct (A_eqb r a) eqn:E; [|lia].
              apply A_eqb_eq in E. subst r. lia.
           ++ exists pre, (post ++ [a])%list.
              split; [|split; assumption].
              rewrite Hl, <- app_assoc. reflexivity.
        -- destruct Hrec as (-> & Hzero). cbn [occurrences] in Hge. lia.
Qed.

End MostSeen.

(** X18.  The loop of [train_dummy_model] finds a most frequent record.
    When it ends, [seen_count] holds the number of occurrences of every
    record, [most_seen_count] is the largest of them, and
    [most_seen_record] is [None] exactly for no records at all and
    otherwise a record that occurs [most_seen_count] times, namely the
    first one to reach that count as the records are read in order. *)
Theorem train_dummy_model_most_seen (A : Type) (A_eqb : A -> A -> bool)
    (records : list A) :
  (forall x y, A_eqb x y = true <-> x = y) ->
  let t := tally_records A A_eqb records in
  (forall x, seen_count t x = occurrences A A_eqb x records)
  /\ (forall x, occurrences A A_eqb x records <= most_seen_count t)
  /\ match most_seen_record t with
     | None => records = [] /\ most_seen_count t = 0
     | Some r =>
         occurrences A A_eqb r records = most_seen_count t
         /\ exists pre post,
              records = (pre ++ r :: post)%list
              /\ occurrences A A_eqb r pre + 1 = most_seen_count t
              /\ forall x, occurrences A A_eqb x pre < most_seen_count t
     end.
Proof. intros H. apply tally_records_spec. exact H. Qed.

(** The records of the test, A B C C C, with C seen three times. *)
Lemma train_dummy_model_most_seen_witness :
  let records := ["A"; "B"; "C"; "C"; "C"] in
  let t := tally_records string String.eqb records in
  most_seen_record t = Some "C"
  /\ most_seen_count t = 3
  /\ (forall x, seen_count t x = occurrences string String.eqb x records)
  /\ (forall x, occurrences string String.eqb x records <= most_seen_count t)
  /\ match most_seen_record t with
     | None => records = [] /\ most_seen_count t = 0
     | Some r =>
         occurrences string String.eqb r records = most_seen_count t
         /\ exists pre post,
              records = (pre ++ r :: post)%list
              /\ occurrences string String.eqb r pre + 1 = most_seen_count t
              /\ forall x, occurrences string String.eqb x pre
                           < most_seen_count t
     end.
Proof.
  intros records t.
  split; [reflexivity|]. split; [reflexivity|].
  apply (train_dummy_model_most_seen string String.eqb records).
  exact String.eqb_eq.
Defined.

(** X20.  With a handle held and an engine whose refreshes fail with "not
    found" only, [WaitUntilRunning] has exactly three ways to end: it
    returns, it raises [JobAborted], or it raises [DeadlineExceeded]. *)
Theorem WaitUntilRunning_three_outcomes env deadline s c :
  _container (self s) = Some c ->
  (forall i e, reload_reply env i = Fails e -> e = NotFound) ->
  let res := fst (WaitUntilRunning env deadline s) in
  res = Ok tt \/ res = Raise JobAborted \/ res = Raise DeadlineExceeded.
Proof.
  intros Hc Henv. cbv zeta.
  destruct (WaitUntilRunning_run env deadline s c Hc) as (k & _ & Hend).
  cbv zeta in Hend. destruct Hend as [[_ H]|(_ & _ & H)]; rewrite H;
    cbn [fst]; [auto|].
  destruct (reload_reply env (polls (world s) + k)) as [st|e] eqn:E.
  - cbn [poll_outcome]. destruct (String.eqb st "running"); auto.
  - rewrite (Henv _ _ E). auto.
Qed.

Lemma WaitUntilRunning_three_outcomes_witness :
  let env := scripted_env (Returns sample_container)
               [Returns "created"; Returns "dead"] (Fails NotFound)
               (Returns tt) in
  let res := fst (WaitUntilRunning env 10%Q started_state) in
  res = Ok tt \/ res = Raise JobAborted \/ res = Raise DeadlineExceeded.
Proof.
  intros env.
  apply (WaitUntilRunning_three_outcomes env 10%Q started_state
           sample_container).
  - reflexivity.
  - intros i e. cbn. destruct i as [|[|[|i]]]; intros H;
      (discriminate || (injection H as <-; reflexivity)).
Defined.
